(** * Glance registry models: soft-deletable active-record entities

    A shallow embedding of [glance/registry/db/sqlalchemy/models.py]:
    the [ModelBase] mix-in ([all], [count], [find], [find_by_str],
    [str_id], [save], [delete], [update], [__setitem__]) and the two
    mapped classes [Image] and [ImageProperty] with their validators.

    How the program is rendered:
    - a Python object of a mapped class is its class, its attribute
      dictionary and the primary key it is persistent under;
    - the module talks to the database through SQLAlchemy sessions that
      [get_session] binds to one engine and that flush straight to it, so
      a [Session] value is the state of the two tables as seen through a
      session; [save] and [delete] return the object and the session
      state after the call next to the outcome;
    - an outcome is a value or a raised exception ([result]); a statement
      that raises leaves the object as it was before the statement;
    - every reading of [datetime.datetime.utcnow] is a parameter of the
      operation that takes it;
    - the store enforces what the class bodies declare: primary keys,
      [nullable=False], [UniqueConstraint], [default] and [onupdate].
      Foreign keys, the conversion of bound values to column types and
      the session's identity map are not rendered;
    - attribute values are plain Python values, never mapped objects,
      so no object has anything attached through the relationship
      between [ImageProperty.image] and [Image.properties]: assigning a
      plain value to a relationship attribute is refused as SQLAlchemy
      refuses it, and a flush concerns the one object that is saved;
    - a flush writes the whole row of its object. The session writes the
      attributes that were assigned since the object was loaded or last
      flushed; the two agree on every object that is new, or that
      agreed with its stored row and was changed by assignment only
      ([Models.current]). Statements that compare a saved object with
      its row carry that hypothesis. *)

From Stdlib Require Import ZArith NArith Ascii String List Lia.
From Stdlib Require Import DecimalString DecimalFacts DecimalNat DecimalN DecimalZ.
From stdpp Require Import base decidable option list gmap strings.

Local Open Scope string_scope.
Local Open Scope Z_scope.

(** ** Python values and the built-ins the module relies on *)

Module Py.

(** [datetime.datetime] (naive, as returned by [utcnow]). *)
Record datetime := mk_datetime {
  year : N; month : N; day : N;
  hour : N; minute : N; second : N; microsecond : N
}.

#[global] Instance datetime_eq_dec : EqDecision datetime.
Proof. solve_decision. Defined.




(** The values that attributes of the mapped classes hold. *)
Inductive value :=
| VNone
| VBool (b : bool)
| VInt (z : Z)
| VStr (s : string)
| VTime (t : datetime).

#[global] Instance value_eq_dec : EqDecision value.
Proof. solve_decision. Defined.

(** Exceptions raised by the module or surfacing through it. *)
Inductive exn :=
| NotFound (msg : string)          (* glance.common.exception.NotFound *)
| Invalid (msg : string)           (* glance.common.exception.Invalid *)
| ValueError (msg : string)        (* int() on a malformed literal *)
| AttributeError (msg : string)
| TypeError (msg : string)
| NoResultFound                    (* sqlalchemy.orm.exc *)
| MultipleResultsFound             (* sqlalchemy.orm.exc *)
| IntegrityError (msg : string)    (* constraint violation from the store *)
| DataError (msg : string)         (* value the store cannot bind *)
| StaleDataError.                  (* UPDATE matched no row *)

#[global] Instance exn_eq_dec : EqDecision exn.
Proof. solve_decision. Defined.

Inductive result (A : Type) :=
| Ok (a : A)
| Raise (e : exn).
Arguments Ok {A} a.
Arguments Raise {A} e.

(** *** Decimal rendering: [str(n)] for integers *)

Definition str_of_N (n : N) : string :=
  NilZero.string_of_uint (N.to_uint n).

Definition str_of_Z (z : Z) : string :=
  match z with
  | Z0 => "0"
  | Zpos p => str_of_N (Npos p)
  | Zneg p => String "-" (str_of_N (Npos p))
  end.

Fixpoint zeros (k : nat) : string :=
  match k with
  | O => ""
  | S k' => String "0" (zeros k')
  end.

(** ["%0<w>d" % n] for a non-negative [n]. *)
Definition zero_pad (w : nat) (n : N) : string :=
  let s := str_of_N n in
  zeros (w - String.length s) ++ s.

(** [str(datetime)]: ISO format with a space separator; the fraction is
    printed only when [microsecond] is non-zero. *)
Definition str_of_datetime (t : datetime) : string :=
  zero_pad 4 (year t) ++ "-" ++ zero_pad 2 (month t) ++ "-" ++
  zero_pad 2 (day t) ++ " " ++ zero_pad 2 (hour t) ++ ":" ++
  zero_pad 2 (minute t) ++ ":" ++ zero_pad 2 (second t) ++
  (if N.eqb (microsecond t) 0 then ""
   else "." ++ zero_pad 6 (microsecond t)).

(** ["%s" % v]. *)
Definition py_str (v : value) : string :=
  match v with
  | VNone => "None"
  | VBool true => "True"
  | VBool false => "False"
  | VInt z => str_of_Z z
  | VStr s => s
  | VTime t => str_of_datetime t
  end.

(** The name of the type of a value as error messages print it, and
    [v.__class__.__name__] ("None" for [None] where SQLAlchemy prints
    it so). *)
Definition tp_name (v : value) : string :=
  match v with
  | VNone => "NoneType"
  | VBool _ => "bool"
  | VInt _ => "int"
  | VStr _ => "str"
  | VTime _ => "datetime.datetime"
  end.

Definition class_name (v : value) : string :=
  match v with
  | VNone => "None"
  | VBool _ => "bool"
  | VInt _ => "int"
  | VStr _ => "str"
  | VTime _ => "datetime"
  end.

(** *** [str.rpartition] with a one-character separator *)

(** Split at the last occurrence of [sep]: [Some (head, tail)], or
    [None] when [sep] does not occur. *)
Fixpoint rsplit_last (sep : ascii) (s : string) : option (string * string) :=
  match s with
  | EmptyString => None
  | String c s' =>
      match rsplit_last sep s' with
      | Some (h, t) => Some (String c h, t)
      | None => if Ascii.eqb c sep then Some ("", s') else None
      end
  end.

(** [s.rpartition(sep)]: [(head, sep, tail)], and [('', '', s)] when the
    separator is absent. *)
Definition rpartition (sep : ascii) (s : string) : string * string * string :=
  match rsplit_last sep s with
  | Some (h, t) => (h, String sep "", t)
  | None => ("", "", s)
  end.

(** *** [int(s)] on a byte string, base 10 *)

(** [isspace] for the C locale: space, \t, \n, \v, \f, \r. *)
Definition is_space (c : ascii) : bool :=
  let n := nat_of_ascii c in
  (Nat.eqb n 32 || (Nat.leb 9 n && Nat.leb n 13))%bool.

Fixpoint lstrip (s : string) : string :=
  match s with
  | String c s' => if is_space c then lstrip s' else s
  | EmptyString => EmptyString
  end.

Fixpoint rstrip (s : string) : string :=
  match s with
  | EmptyString => EmptyString
  | String c s' =>
      match rstrip s' with
      | EmptyString => if is_space c then EmptyString else String c EmptyString
      | r => String c r
      end
  end.

Definition strip (s : string) : string := rstrip (lstrip s).

Definition is_digit (c : ascii) : bool :=
  let n := nat_of_ascii c in
  (Nat.leb 48 n && Nat.leb n 57)%bool.

Fixpoint all_chars (P : ascii -> bool) (s : string) : bool :=
  match s with
  | EmptyString => true
  | String c s' => P c && all_chars P s'
  end.

(** A character other than the separator of external identifiers. *)
Definition no_dash (c : ascii) : bool := negb (Ascii.eqb c "-").

(** One or more decimal digits, leading zeros allowed. *)
Definition parse_digits (s : string) : option N :=
  match s with
  | EmptyString => None
  | _ => N.of_uint <$> NilEmpty.uint_of_string s
  end.

(** [int(s)]: surrounding whitespace is dropped, then an optional sign
    and a non-empty run of digits must remain; anything else is a
    [ValueError]. *)
Definition parse_int (s : string) : option Z :=
  match strip s with
  | String "+" d => Z.of_N <$> parse_digits d
  | String "-" d => (fun n => - Z.of_N n) <$> parse_digits d
  | d => Z.of_N <$> parse_digits d
  end.

Definition int (s : string) : result Z :=
  match parse_int s with
  | Some z => Ok z
  | None =>
      Raise (ValueError ("invalid literal for int() with base 10: '" ++ s ++ "'"))
  end.

End Py.
Export Py.

(** ** Mapped classes, objects and the relational store *)

Module Schema.

(** The two mapped classes ([BASE] subclasses that mix in [ModelBase]). *)
Inductive cls := Image | ImageProperty.

#[global] Instance cls_eq_dec : EqDecision cls.
Proof. solve_decision. Defined.

Definition __tablename__ (c : cls) : string :=
  match c with
  | Image => "images"
  | ImageProperty => "image_properties"
  end.

Definition __name__ (c : cls) : string :=
  match c with
  | Image => "Image"
  | ImageProperty => "ImageProperty"
  end.

Definition __prefix__ (c : cls) : string :=
  match c with
  | Image => "img"
  | ImageProperty => "img-prop"
  end.

(** Columns declared on [ModelBase] and inherited by both classes. *)
Definition base_columns : list string :=
  ["created_at"; "updated_at"; "deleted_at"; "deleted"].

Definition columns (c : cls) : list string :=
  match c with
  | Image =>
      ["id"; "name"; "type"; "size"; "status"; "is_public"; "location"]
        ++ base_columns
  | ImageProperty => ["id"; "image_id"; "key"; "value"] ++ base_columns
  end.

(** [Column(..., default=...)]: the value bound by an INSERT for an
    attribute that was left unset. [now] is the reading of
    [datetime.datetime.utcnow] taken by the flush. *)
Definition column_default (c : cls) (k : string) (now : datetime) : option value :=
  if decide (k = "created_at") then Some (VTime now)
  else if decide (k = "deleted") then Some (VBool false)
  else if decide (c = Image ∧ k = "is_public") then Some (VBool false)
  else None.

(** [Column(..., onupdate=...)]: the value bound by an UPDATE that does not
    itself set the column. *)
Definition column_onupdate (k : string) (now : datetime) : option value :=
  if decide (k = "updated_at") then Some (VTime now) else None.

(** [primary_key=True] and [nullable=False] columns reject NULL. *)
Definition not_null (c : cls) (k : string) : bool :=
  bool_decide (k = "id") || bool_decide (c = ImageProperty ∧ k = "image_id").

(** [UniqueConstraint('image_id', 'key')] in [ImageProperty.__table_args__]. *)
Definition unique_constraints (c : cls) : list (list string) :=
  match c with
  | Image => []
  | ImageProperty => [["image_id"; "key"]]
  end.

(** A Python object of a mapped class: its class, its attribute
    dictionary, and the primary key under which it is persistent
    ([None] while it has never been flushed). The dictionary holds
    plain values: an object to which another mapped object is attached
    through a relationship is not among these. *)
Record Model := mk_model {
  cls_of : cls;
  dict : gmap string value;
  identity : option Z
}.

#[global] Instance Model_eq_dec : EqDecision Model.
Proof. solve_decision. Defined.

(** Reading a column attribute; an attribute never set reads as [None]. *)
Definition getattr (self : Model) (k : string) : value :=
  default VNone (dict self !! k).

(** A row of a table, and the store as a session bound to the engine
    sees it. Rows are never removed by this module, so a table is the
    list of rows in insertion order. *)
Record Session := mk_session {
  images : list (gmap string value);
  image_properties : list (gmap string value)
}.

#[global] Instance Session_eq_dec : EqDecision Session.
Proof. solve_decision. Defined.

Definition col (r : gmap string value) (k : string) : value :=
  default VNone (r !! k).

Definition table (s : Session) (c : cls) : list (gmap string value) :=
  match c with
  | Image => images s
  | ImageProperty => image_properties s
  end.

Definition set_table (s : Session) (c : cls) (t : list (gmap string value)) : Session :=
  match c with
  | Image => {| images := t; image_properties := image_properties s |}
  | ImageProperty => {| images := images s; image_properties := t |}
  end.

(** The object that a query materialises from a row. *)
Definition load (c : cls) (r : gmap string value) : Model :=
  {| cls_of := c; dict := r;
     identity := match col r "id" with VInt n => Some n | _ => None end |}.

(** *** Query: [session.query(cls).filter_by(k=v).all() / .count() / .one()] *)

Definition query (s : Session) (c : cls) : list (gmap string value) := table s c.

(** [filter_by(k=v)] renders [k = v], and [k IS NULL] when [v] is [None];
    a NULL column matches only the latter. *)
Definition filter_by (k : string) (v : value)
    (q : list (gmap string value)) : list (gmap string value) :=
  filter (fun r => col r k = v) q.

Definition q_all (c : cls) (q : list (gmap string value)) : list Model :=
  load c <$> q.

Definition q_count (q : list (gmap string value)) : nat := length q.

Definition q_one (c : cls) (q : list (gmap string value)) : result Model :=
  match q with
  | [] => Raise NoResultFound
  | [r] => Ok (load c r)
  | _ :: _ :: _ => Raise MultipleResultsFound
  end.

(** *** Flush: [session.add(obj); session.flush()] *)

(** Equality as a constraint sees it: NULL is distinct from everything. *)
Definition sql_eq (a b : value) : bool :=
  bool_decide (a ≠ VNone) && bool_decide (a = b).

Definition same_on (cols : list string) (r o : gmap string value) : bool :=
  forallb (fun k => sql_eq (col r k) (col o k)) cols.

(** Constraints that the store checks for a row [r] about to be written
    next to the rows [others]. *)
Definition check_constraints (c : cls) (r : gmap string value)
    (others : list (gmap string value)) : result unit :=
  match find (fun k => not_null c k && bool_decide (col r k = VNone)) (columns c) with
  | Some k =>
      Raise (IntegrityError (__tablename__ c ++ "." ++ k ++ " may not be NULL"))
  | None =>
      match col r "id" with
      | VInt _ =>
          if existsb (same_on ["id"] r) others
          then Raise (IntegrityError "PRIMARY KEY must be unique")
          else
            match find (fun u => existsb (same_on u r) others) (unique_constraints c) with
            | Some u =>
                Raise (IntegrityError
                         ("columns " ++ String.concat ", " u ++ " are not unique"))
            | None => Ok tt
            end
      | _ => Raise (DataError "datatype mismatch")
      end
  end.

(** The key handed out for a row inserted without one: larger than every
    key in use, and at least 1. *)
Definition next_id (t : list (gmap string value)) : Z :=
  1 + foldr (fun r m => match col r "id" with VInt n => Z.max n m | _ => m end) 0 t.

(** The row with one entry [k := f k] per column [k]. *)
Definition tabulate (cols : list string) (f : string -> value) : gmap string value :=
  list_to_map ((fun k => (k, f k)) <$> cols).

(** The row image of an object: one entry per mapped column. *)
Definition row_of (self : Model) : gmap string value :=
  tabulate (columns (cls_of self)) (getattr self).

(** The object after a successful flush wrote row [r] for it: the
    written columns are visible as attributes, other attributes stay. *)
Definition flushed (self : Model) (r : gmap string value) : Model :=
  {| cls_of := cls_of self; dict := r ∪ dict self;
     identity := match col r "id" with VInt n => Some n | _ => None end |}.

(** The row that an INSERT writes for a new object: unset attributes
    take the column default, a missing key is generated. *)
Definition insert_row (self : Model) (now : datetime)
    (t : list (gmap string value)) : gmap string value :=
  let c := cls_of self in
  let bound k :=
    match getattr self k with
    | VNone => default VNone (column_default c k now)
    | v => v
    end in
  let r0 := tabulate (columns c) bound in
  match col r0 "id" with
  | VNone => <["id" := VInt (next_id t)]> r0
  | _ => r0
  end.

(** INSERT for an object that is not yet persistent. Nothing is
    attached to the object through its relationship attribute, so the
    one row written is its own, and [image_id] is what was assigned. *)
Definition flush_insert (self : Model) (now : datetime) (s : Session)
  : Model * Session * result unit :=
  let c := cls_of self in
  let t := table s c in
  let r := insert_row self now t in
  match check_constraints c r t with
  | Ok _ => (flushed self r, set_table s c (t ++ [r]), Ok tt)
  | Raise x => (self, s, Raise x)
  end.

(** No column attribute differs from the stored row [old]. *)
Definition is_clean (self : Model) (old : gmap string value) : bool :=
  forallb (fun k => bool_decide (getattr self k = col old k)) (columns (cls_of self)).

(** The row that an UPDATE leaves for a changed object: its column
    attributes, with every [onupdate] column that was not itself changed
    refreshed. *)
Definition update_row (self : Model) (old : gmap string value)
    (now : datetime) : gmap string value :=
  foldr (fun k r =>
           match column_onupdate k now with
           | Some v =>
               if bool_decide (getattr self k = col old k)
               then <[k := v]> r else r
           | None => r
           end) (row_of self) (columns (cls_of self)).

(** UPDATE for a persistent object: issued only when some column
    attribute differs from the stored row, and then writing the column
    attributes of the object. For an object whose unassigned attributes
    are those of its row this is the UPDATE of the session, which sets
    the assigned attributes; an object that has gone stale, its row
    having been rewritten through another object, would here write its
    old values back. *)
Definition flush_update (self : Model) (key : Z) (now : datetime) (s : Session)
  : Model * Session * result unit :=
  let c := cls_of self in
  let t := table s c in
  match list_find (fun r => col r "id" = VInt key) t with
  | None => (self, s, Raise StaleDataError)
  | Some (i, old) =>
      if is_clean self old
      then (self, s, Ok tt)
      else
        let r := update_row self old now in
        match check_constraints c r (base.delete i t) with
        | Ok _ => (flushed self r, set_table s c (<[i := r]> t), Ok tt)
        | Raise x => (self, s, Raise x)
        end
  end.

Definition flush (self : Model) (now : datetime) (s : Session)
  : Model * Session * result unit :=
  match identity self with
  | None => flush_insert self now s
  | Some key => flush_update self key now s
  end.

(** *** Store invariants

    What the primary keys and the declared unique constraints guarantee
    about a table. *)

Definition is_int (v : value) : bool :=
  match v with
  | VInt _ => true
  | _ => false
  end.

Fixpoint unique_on (cols : list string) (t : list (gmap string value)) : bool :=
  match t with
  | [] => true
  | r :: t' => negb (existsb (same_on cols r) t') && unique_on cols t'
  end.

Definition table_ok (c : cls) (t : list (gmap string value)) : bool :=
  forallb (fun r => is_int (col r "id")) t
  && unique_on ["id"] t
  && forallb (fun u => unique_on u t) (unique_constraints c).

Definition store_ok (s : Session) : Prop :=
  table_ok Image (images s) = true /\
  table_ok ImageProperty (image_properties s) = true.

(** A persistent object whose column attributes are those of its stored
    row: what a query or a successful flush leaves. *)
Definition in_sync (self : Model) (s : Session) : Prop :=
  exists key old,
    identity self = Some key /\ old ∈ table s (cls_of self) /\
    col old "id" = VInt key /\ is_clean self old = true.

(** The shape of what [flush] returns: the four ways a flush can end. *)
Inductive flush_outcome (self : Model) (now : datetime) (s : Session)
  : Model * Session * result unit -> Prop :=
| flush_failed x : flush_outcome self now s (self, s, Raise x)
| flush_noop key i old :
    identity self = Some key ->
    table s (cls_of self) !! i = Some old ->
    col old "id" = VInt key ->
    is_clean self old = true ->
    flush_outcome self now s (self, s, Ok tt)
| flush_inserted r :
    identity self = None ->
    r = insert_row self now (table s (cls_of self)) ->
    check_constraints (cls_of self) r (table s (cls_of self)) = Ok tt ->
    flush_outcome self now s
      (flushed self r,
       set_table s (cls_of self) (table s (cls_of self) ++ [r]), Ok tt)
| flush_updated key i old r :
    identity self = Some key ->
    table s (cls_of self) !! i = Some old ->
    col old "id" = VInt key ->
    is_clean self old = false ->
    r = update_row self old now ->
    check_constraints (cls_of self) r (base.delete i (table s (cls_of self))) = Ok tt ->
    flush_outcome self now s
      (flushed self r,
       set_table s (cls_of self) (<[i := r]> (table s (cls_of self))), Ok tt).

End Schema.
Export Schema.

(** ** The module [glance.registry.db.sqlalchemy.models] *)

Module Models.

(** *** [Image.validate_type], [Image.validate_status] *)

Definition image_types : list value :=
  [VStr "machine"; VStr "kernel"; VStr "ramdisk"; VStr "raw"].

Definition image_statuses : list value :=
  [VStr "available"; VStr "pending"; VStr "disabled"].

Definition validate_type (key : string) (type : value) : result value :=
  if negb (bool_decide (type ∈ image_types))
  then Raise (Invalid ("Invalid image type '" ++ py_str type ++ "' for image."))
  else Ok type.

Definition validate_status (key : string) (status : value) : result value :=
  if negb (bool_decide (status ∈ image_statuses))
  then Raise (Invalid ("Invalid status '" ++ py_str status ++ "' for image."))
  else Ok status.

(** [@validates(name)]: the validator registered for an attribute of a
    class, if any. *)
Definition validates (c : cls) (key : string) : option (string -> value -> result value) :=
  match c with
  | Image =>
      if decide (key = "type") then Some validate_type
      else if decide (key = "status") then Some validate_status
      else None
  | ImageProperty => None
  end.

(** *** Attribute assignment: [setattr(self, key, value)] *)

(** The relationship attribute of each class ([relationship] with
    [backref]); it is a descriptor of the class, so the instance
    dictionary never shadows it. *)
Definition relationships (c : cls) : list string :=
  match c with
  | Image => ["properties"]
  | ImageProperty => ["image"]
  end.

(** Names of the object system that an instance cannot be given a
    plain value for: [__class__] takes a class, [__dict__] a
    dictionary, and [__weakref__] is not writable. *)
Definition guarded_names : list string := ["__class__"; "__dict__"; "__weakref__"].

Definition guarded_error (c : cls) (key : string) (v : value) : exn :=
  if decide (key = "__class__")
  then TypeError ("__class__ must be set to new-style class, not '"
                    ++ tp_name v ++ "' object")
  else if decide (key = "__dict__")
  then TypeError ("__dict__ must be set to a dictionary, not a '"
                    ++ tp_name v ++ "'")
  else AttributeError ("attribute '__weakref__' of '" ++ __name__ c
                         ++ "' objects is not writable").

(** Assigning a plain value to the relationship attribute. The values
    of this development are never mapped objects, so nothing can be
    attached through a relationship: the collection [Image.properties]
    refuses whatever is not list-like, the scalar [ImageProperty.image]
    takes [None] and refuses every other value when it looks for the
    instance state of the mapped object it expects. *)
Definition set_relationship (c : cls) (v : value) : option exn :=
  match c, v with
  | Image, _ =>
      Some (TypeError ("Incompatible collection type: " ++ class_name v
                         ++ " is not list-like"))
  | ImageProperty, VNone => None
  | ImageProperty, _ =>
      Some (AttributeError ("'" ++ tp_name v
                              ++ "' object has no attribute '_sa_instance_state'"))
  end.

(** The pair returned is the object after the statement together with
    the outcome. [str_id] is a read-only property; the guarded names
    refuse plain values; the relationship attribute is handled by
    [set_relationship]. A validator runs before the value is
    stored and what it returns is stored; when it raises, nothing is
    stored. Any other name is stored in the instance dictionary. *)
Definition setattr (self : Model) (key : string) (v : value) : Model * result unit :=
  let store v' :=
    ({| cls_of := cls_of self; dict := <[key := v']> (dict self);
        identity := identity self |}, Ok tt) in
  if decide (key = "str_id")
  then (self, Raise (AttributeError "can't set attribute"))
  else if decide (key ∈ guarded_names)
  then (self, Raise (guarded_error (cls_of self) key v))
  else if decide (key ∈ relationships (cls_of self))
  then match set_relationship (cls_of self) v with
       | Some x => (self, Raise x)
       | None => store v
       end
  else
    match validates (cls_of self) key with
    | Some validator =>
        match validator key v with
        | Ok v' => store v'
        | Raise x => (self, Raise x)
        end
    | None => store v
    end.

(** Names that [hasattr(cls, name)] finds on a mapped class: its columns
    and what [ModelBase] and the class body define. (Names inherited from
    [object] and from the declarative base are left out.) *)
Definition class_attributes (c : cls) : list string :=
  columns c ++
  ["__table_args__"; "__table_initialized__"; "__prefix__"; "__tablename__";
   "all"; "count"; "find"; "find_by_str"; "str_id"; "save"; "delete";
   "update"; "__setitem__"; "__getitem__"; "__iter__"; "next"; "keys";
   "values"; "items"] ++
  match c with
  | Image => ["validate_type"; "validate_status"; "properties"]
  | ImageProperty => ["image"]
  end.

(** The keyword constructor [cls(k=v, ...)] that [declarative_base] installs:
    every keyword must name an attribute of the class and is assigned
    with [setattr]. An exception leaves no object behind. *)
Fixpoint construct (self : Model) (kwargs : list (string * value)) : result Model :=
  match kwargs with
  | [] => Ok self
  | (k, v) :: rest =>
      if negb (bool_decide (k ∈ class_attributes (cls_of self)))
      then Raise (TypeError ("'" ++ k ++ "' is an invalid keyword argument for "
                               ++ __name__ (cls_of self)))
      else
        match setattr self k v with
        | (self', Ok _) => construct self' rest
        | (_, Raise x) => Raise x
        end
  end.

Definition new (c : cls) (kwargs : list (string * value)) : result Model :=
  construct {| cls_of := c; dict := ∅; identity := None |} kwargs.

(** An [Image] whose enumerated attributes are each unset or hold a
    member of their enumeration. *)
Definition enum_or_unset (m : Model) : Prop :=
  cls_of m = Image /\
  (getattr m "type" = VNone \/ getattr m "type" ∈ image_types) /\
  (getattr m "status" = VNone \/ getattr m "status" ∈ image_statuses).

(** The image rows of a store hold, as type and as status, nothing but
    NULL or a member of the enumeration. *)
Definition row_valid (r : gmap string value) : Prop :=
  (col r "type" = VNone \/ col r "type" ∈ image_types) /\
  (col r "status" = VNone \/ col r "status" ∈ image_statuses).

Definition images_valid (s : Session) : Prop :=
  Forall row_valid (images s).

(** [setattr(self, k, v)] raises: the name is the read-only property or
    one of the guarded names, the relationship attribute refuses the
    value, or the validator of the attribute rejects it. *)
Definition rejected (c : cls) (k : string) (v : value) : bool :=
  bool_decide (k = "str_id") ||
  bool_decide (k ∈ guarded_names) ||
  (if decide (k ∈ relationships c)
   then match set_relationship c v with Some _ => true | None => false end
   else
     match validates c k with
     | Some validator =>
         match validator k v with
         | Ok _ => false
         | Raise _ => true
         end
     | None => false
     end).

(** An item that names a mapped column of the class and whose value the
    validator of that column, if it has one, accepts. *)
Definition assignable (c : cls) (k : string) (v : value) : bool :=
  bool_decide (k ∈ columns c) && negb (rejected c k v).

(** *** [ModelBase] *)

Section ModelBase.

(** [glance.common.db.sqlalchemy.session.get_session] is not among the
    sources at hand; it is a parameter that hands out a session bound to
    the engine. *)
Variable get_session : unit -> Session.

(** [if not session: session = get_session()] *)
Definition session_or_default (session : option Session) : Session :=
  match session with
  | Some s => s
  | None => get_session tt
  end.

(** [ModelBase.all(cls, session=None, deleted=False)] *)
Definition all (c : cls) (session : option Session) (deleted : bool) : list Model :=
  let session := session_or_default session in
  q_all c (filter_by "deleted" (VBool deleted) (query session c)).

(** [ModelBase.count(cls, session=None, deleted=False)] *)
Definition count (c : cls) (session : option Session) (deleted : bool) : nat :=
  let session := session_or_default session in
  q_count (filter_by "deleted" (VBool deleted) (query session c)).

(** [ModelBase.find(cls, obj_id, session=None, deleted=False)]: only
    [NoResultFound] is caught and re-raised as [NotFound]. *)
Definition find (c : cls) (obj_id : value) (session : option Session)
    (deleted : bool) : result Model :=
  let session := session_or_default session in
  match q_one c (filter_by "deleted" (VBool deleted)
                   (filter_by "id" obj_id (query session c))) with
  | Raise NoResultFound => Raise (NotFound ("No model for id " ++ py_str obj_id))
  | r => r
  end.

(** [ModelBase.find_by_str(cls, str_id, session=None, deleted=False)] *)
Definition find_by_str (c : cls) (str_id : string) (session : option Session)
    (deleted : bool) : result Model :=
  match int (rpartition "-" str_id).2 with
  | Ok int_id => find c (VInt int_id) session deleted
  | Raise x => Raise x
  end.

(** [ModelBase.str_id]: ["%s-%s" % (self.__prefix__, self.id)] *)
Definition str_id (self : Model) : string :=
  __prefix__ (cls_of self) ++ "-" ++ py_str (getattr self "id").

(** [ModelBase.save(self, session=None)]; [now] is the clock reading that
    the flush uses for [default] / [onupdate] columns. *)
Definition save (self : Model) (session : option Session) (now : datetime)
  : Model * Session * result unit :=
  let session := session_or_default session in
  flush self now session.

(** [ModelBase.delete(self, session=None)]; [now] is the reading of
    [utcnow] in the body, [flush_now] the later one taken by the flush. *)
Definition delete (self : Model) (session : option Session)
    (now flush_now : datetime) : Model * Session * result unit :=
  match setattr self "deleted" (VBool true) with
  | (self, Raise x) => (self, session_or_default session, Raise x)
  | (self, Ok _) =>
      match setattr self "deleted_at" (VTime now) with
      | (self, Raise x) => (self, session_or_default session, Raise x)
      | (self, Ok _) => save self session flush_now
      end
  end.

(** [ModelBase.__setitem__(self, key, value)] *)
Definition __setitem__ (self : Model) (key : string) (v : value) : Model * result unit :=
  setattr self key v.

(** [ModelBase.update(self, values)]: [values] is the dictionary in the
    order [iteritems] yields it; the loop stops at the first exception
    and earlier assignments stay. *)
Fixpoint update (self : Model) (values : list (string * value)) : Model * result unit :=
  match values with
  | [] => (self, Ok tt)
  | (k, v) :: rest =>
      match __setitem__ self k v with
      | (self', Ok _) => update self' rest
      | (self', Raise x) => (self', Raise x)
      end
  end.


(** The [Image] objects a program can get hold of through this module:
    constructed, or loaded by [find], [find_by_str] or [all] from a
    store whose image rows are valid, then taken through any sequence
    of assignments, bulk updates, saves and deletes. *)
Inductive image_built : Model -> Prop :=
| built_new kwargs m :
    new Image kwargs = Ok m -> image_built m
| built_find obj_id session deleted m :
    images_valid (session_or_default session) ->
    find Image obj_id session deleted = Ok m -> image_built m
| built_find_by_str str_id session deleted m :
    images_valid (session_or_default session) ->
    find_by_str Image str_id session deleted = Ok m -> image_built m
| built_all session deleted m :
    images_valid (session_or_default session) ->
    m ∈ all Image session deleted -> image_built m
| built_setattr m k v :
    image_built m -> image_built (setattr m k v).1
| built_setitem m k v :
    image_built m -> image_built (__setitem__ m k v).1
| built_update m values :
    image_built m -> image_built (update m values).1
| built_save m session now :
    image_built m -> image_built (save m session now).1.1
| built_delete m session now flush_now :
    image_built m -> image_built (delete m session now flush_now).1.1.

(** *** Dict-like reading and iteration *)

(** What [getattr(self, key)] finds. *)
Inductive attribute :=
| Data (v : value)
    (* a value held by the object, or derived from it *)
| ClassLevel
    (* what the class defines under the name: a method, a relationship,
       a class constant *)
| Untracked.
    (* a name with a leading underscore, or [metadata]: names of the
       object system and of the mapper, which are not followed here *)

Definition untracked_name (key : string) : bool :=
  match key with
  | String "_" _ => true
  | _ => bool_decide (key = "metadata")
  end.

(** [ModelBase.__getitem__(self, key)]: [getattr(self, key)]. The
    property and the column descriptors of the class come first, then
    the instance dictionary, then the other names of the class; a name
    found nowhere raises [AttributeError]. *)
Definition __getitem__ (self : Model) (key : string) : result attribute :=
  if decide (key = "str_id") then Ok (Data (VStr (str_id self)))
  else if decide (key ∈ columns (cls_of self)) then Ok (Data (getattr self key))
  else if decide (key ∈ relationships (cls_of self)) then Ok ClassLevel
  else
    match dict self !! key with
    | Some v => Ok (Data v)
    | None =>
        if decide (key ∈ class_attributes (cls_of self)) then Ok ClassLevel
        else if untracked_name key then Ok Untracked
        else Raise (AttributeError
                      ("'" ++ __name__ (cls_of self)
                           ++ "' object has no attribute '" ++ key ++ "'"))
    end.

(** An object together with the cursor that [__iter__] stores on it as
    [self._i]: the column names still to come, [None] before the first
    [__iter__]. *)
Record Iterating := mk_iterating {
  it_self : Model;
  _i : option (list string)
}.

(** What one call of [next] gives. *)
Inductive step :=
| Yield (n : string) (v : value)
| StopIteration
| Fail (x : exn).

(** [ModelBase.__iter__(self)]: a fresh cursor over the mapper's columns
    is stored on the object and the object itself is returned. (The
    order of the columns is taken from [columns]; no statement below
    depends on it.) *)
Definition __iter__ (it : Iterating) : Iterating :=
  {| it_self := it_self it; _i := Some (columns (cls_of (it_self it))) |}.

(** [ModelBase.next(self)]: the next column name with the attribute of
    that name; the cursor stays exhausted once it is. *)
Definition next (it : Iterating) : Iterating * step :=
  match _i it with
  | None =>
      (it, Fail (AttributeError
                   ("'" ++ __name__ (cls_of (it_self it))
                        ++ "' object has no attribute '_i'")))
  | Some [] => (it, StopIteration)
  | Some (n :: rest) =>
      ({| it_self := it_self it; _i := Some rest |}, Yield n (getattr (it_self it) n))
  end.

(** [for n, v in self: ...] collecting the pairs: [__iter__], then [next]
    until [StopIteration]. [fuel] bounds the number of calls of [next];
    [None] when it does not suffice. *)
Fixpoint drain (fuel : nat) (it : Iterating)
  : option (Iterating * result (list (string * value))) :=
  match fuel with
  | O => None
  | S fuel' =>
      match next it with
      | (it', Yield n v) =>
          match drain fuel' it' with
          | Some (it'', Ok items) => Some (it'', Ok ((n, v) :: items))
          | other => other
          end
      | (it', StopIteration) => Some (it', Ok [])
      | (it', Fail x) => Some (it', Raise x)
      end
  end.

Definition for_each (fuel : nat) (it : Iterating)
  : option (Iterating * result (list (string * value))) :=
  drain fuel (__iter__ it).

End ModelBase.

End Models.

(** ** Sample data used to exercise the statements *)

Module Sample.

Definition t0 := mk_datetime 2010 11 5 9 3 0 0.
Definition t1 := mk_datetime 2010 11 5 9 4 0 0.
Definition t2 := mk_datetime 2010 11 5 9 5 0 0.
Definition empty := mk_session [] [].
Definition provider := fun _ : unit => empty.
(** [Image(name="ubuntu", type="machine", status="available")] *)
Definition ubuntu : Model :=
  match Models.new Image
          [("name", VStr "ubuntu"); ("type", VStr "machine");
           ("status", VStr "available")] with
  | Ok m => m
  | Raise _ => mk_model Image ∅ None
  end.
(** ... after [save()] into the empty store. *)
Definition ubuntu_saved : Model := (Models.save provider ubuntu None t0).1.1.
Definition one_image : Session := (Models.save provider ubuntu None t0).1.2.
(** [ImageProperty(image_id=1, key="arch", value="x86")], saved next to
    the image, and a second property with the same image and key. *)
Definition arch : Model :=
  match Models.new ImageProperty
          [("image_id", VInt 1); ("key", VStr "arch"); ("value", VStr "x86")] with
  | Ok m => m
  | Raise _ => mk_model ImageProperty ∅ None
  end.
Definition arch_saved : Model := (Models.save provider arch (Some one_image) t1).1.1.
Definition with_arch : Session := (Models.save provider arch (Some one_image) t1).1.2.
Definition arch_again : Model :=
  match Models.new ImageProperty
          [("image_id", VInt 1); ("key", VStr "arch"); ("value", VStr "arm")] with
  | Ok m => m
  | Raise _ => mk_model ImageProperty ∅ None
  end.
(** [Image(name="ubuntu")]: neither [type] nor [status] is given. *)
Definition untyped : Model :=
  match Models.new Image [("name", VStr "ubuntu")] with
  | Ok m => m
  | Raise _ => mk_model Image ∅ None
  end.
(** A table in which the key of the image occurs twice (what the store
    rules out). *)
Definition twice : Session :=
  mk_session [row_of ubuntu_saved; row_of ubuntu_saved] [].
(** The image with the cursor of an iteration that has not started, and
    of one that stopped after two columns. *)
Definition not_iterated : Models.Iterating := Models.mk_iterating ubuntu_saved None.
Definition half_way : Models.Iterating :=
  (Models.next (Models.next (Models.__iter__ not_iterated)).1).1.
(** [ImageProperty(image_id=1, value="x86")] and
    [ImageProperty(image_id=1, value="arm")]: two properties of the
    image, neither with a key. *)
Definition keyless : Model :=
  match Models.new ImageProperty [("image_id", VInt 1); ("value", VStr "x86")] with
  | Ok m => m
  | Raise _ => mk_model ImageProperty ∅ None
  end.
Definition keyless_again : Model :=
  match Models.new ImageProperty [("image_id", VInt 1); ("value", VStr "arm")] with
  | Ok m => m
  | Raise _ => mk_model ImageProperty ∅ None
  end.
(** A store in which the row of the image holds a type that no
    validator has seen: the column is a plain [String(30)], and the row
    was written by another program. *)
Definition foreign : Session :=
  mk_session [<["type" := VStr "vhd"]> (row_of ubuntu_saved)] [].
(** [ImageProperty(key="arch")]: no image is given. *)
Definition orphan : Model :=
  match Models.new ImageProperty [("key", VStr "arch")] with
  | Ok m => m
  | Raise _ => mk_model ImageProperty ∅ None
  end.
End Sample.

(** * Facts *)

(** ** Strings: separators, digits, [int] of a decimal rendering *)

Section StringFacts.

Lemma all_chars_impl (P Q : ascii -> bool) s :
  (forall c, P c = true -> Q c = true) ->
  all_chars P s = true -> all_chars Q s = true.
Proof.
  intros HPQ. induction s as [|c s IH]; simpl; [done|].
  rewrite !andb_true_iff. intros [Hc Hs]. auto.
Qed.

Lemma digit_not_space c : is_digit c = true -> is_space c = false.
Proof. destruct c as [[] [] [] [] [] [] [] []]; vm_compute; congruence. Qed.

Lemma digit_not_dash c : is_digit c = true -> Ascii.eqb c "-" = false.
Proof. destruct c as [[] [] [] [] [] [] [] []]; vm_compute; congruence. Qed.

Lemma uint_digits d : all_chars is_digit (NilEmpty.string_of_uint d) = true.
Proof. induction d; simpl; auto. Qed.

Lemma str_of_N_digits n : all_chars is_digit (str_of_N n) = true.
Proof.
  unfold str_of_N, NilZero.string_of_uint.
  destruct (N.to_uint n); try apply (uint_digits (_ _)); reflexivity.
Qed.

Lemma str_of_N_nonempty n : str_of_N n <> "".
Proof.
  unfold str_of_N, NilZero.string_of_uint.
  destruct (N.to_uint n); simpl; discriminate.
Qed.

Lemma rsplit_last_absent sep s :
  all_chars (fun c => negb (Ascii.eqb c sep)) s = true -> rsplit_last sep s = None.
Proof.
  induction s as [|c s IH]; simpl; [done|].
  rewrite andb_true_iff, negb_true_iff. intros [Hc Hs].
  rewrite (IH Hs), Hc. done.
Qed.

Lemma rsplit_last_app sep h t :
  rsplit_last sep t = None ->
  rsplit_last sep (h ++ String sep t) = Some (h, t).
Proof.
  intros Ht. induction h as [|c h IH]; simpl.
  - rewrite Ht, Ascii.eqb_refl. done.
  - rewrite IH. done.
Qed.

Lemma rsplit_last_Some sep s h t :
  rsplit_last sep s = Some (h, t) ->
  s = h ++ String sep t /\ rsplit_last sep t = None.
Proof.
  revert h. induction s as [|c s IH]; simpl; intros h; [done|].
  destruct (rsplit_last sep s) as [[h' t']|] eqn:E.
  - intros [= <- <-]. destruct (IH h' eq_refl) as [-> Hn]. done.
  - destruct (Ascii.eqb c sep) eqn:Ec; [|done].
    intros [= <- <-]. apply Ascii.eqb_eq in Ec as ->. done.
Qed.

Lemma rsplit_last_None sep s :
  rsplit_last sep s = None ->
  all_chars (fun c => negb (Ascii.eqb c sep)) s = true.
Proof.
  induction s as [|c s IH]; simpl; [done|].
  destruct (rsplit_last sep s) as [[h' t']|] eqn:E; [done|].
  destruct (Ascii.eqb c sep); [done|]. intros _. simpl. auto.
Qed.

Lemma lstrip_no_space s :
  all_chars (fun c => negb (is_space c)) s = true -> lstrip s = s.
Proof.
  destruct s as [|c s]; simpl; [done|].
  rewrite andb_true_iff, negb_true_iff. intros [-> _]. done.
Qed.

Lemma rstrip_no_space s :
  all_chars (fun c => negb (is_space c)) s = true -> rstrip s = s.
Proof.
  induction s as [|c s IH]; simpl; [done|].
  rewrite andb_true_iff, negb_true_iff. intros [Hc Hs].
  rewrite (IH Hs), Hc. destruct s; done.
Qed.

Lemma parse_int_digits s :
  all_chars is_digit s = true -> parse_int s = Z.of_N <$> parse_digits s.
Proof.
  intros Hd. unfold parse_int, strip.
  rewrite lstrip_no_space, rstrip_no_space;
    try (eapply all_chars_impl; [|exact Hd];
         intros c Hc; rewrite (digit_not_space c Hc); done).
  destruct s as [|c s]; [done|].
  simpl in Hd. apply andb_true_iff in Hd as [Hc _].
  destruct c as [[] [] [] [] [] [] [] []]; try done; vm_compute in Hc; done.
Qed.

Lemma parse_digits_str_of_N n : parse_digits (str_of_N n) = Some n.
Proof.
  unfold parse_digits.
  pose proof (str_of_N_nonempty n) as Hne.
  destruct (str_of_N n) eqn:E; [done|]. rewrite <- E.
  unfold str_of_N.
  assert (NilZero.string_of_uint (N.to_uint n)
          = NilEmpty.string_of_uint (N.to_uint n)) as ->.
  { unfold NilZero.string_of_uint. destruct n; simpl; [done|].
    pose proof (DecimalPos.Unsigned.to_uint_nonnil p).
    destruct (Pos.to_uint p); done. }
  rewrite NilEmpty.usu. simpl. by rewrite DecimalN.Unsigned.of_to.
Qed.

Lemma parse_int_str_of_N n : parse_int (str_of_N n) = Some (Z.of_N n).
Proof.
  rewrite parse_int_digits by apply str_of_N_digits.
  by rewrite parse_digits_str_of_N.
Qed.

Lemma str_of_Z_nonneg z : 0 <= z -> str_of_Z z = str_of_N (Z.to_N z).
Proof. destruct z; [done|done|lia]. Qed.

Lemma uint_of_string_digits s :
  all_chars is_digit s = true -> is_Some (NilEmpty.uint_of_string s).
Proof.
  induction s as [|c s IH]; simpl; [eauto|].
  rewrite andb_true_iff. intros [Hc [d ->]%IH].
  destruct c as [[] [] [] [] [] [] [] []]; try (vm_compute in Hc; discriminate Hc);
    simpl; eauto.
Qed.

(** A non-empty run of digits is accepted by [int], with a value that
    is not negative. *)
Lemma parse_int_accepts_digits s :
  s <> "" -> all_chars is_digit s = true ->
  exists n, 0 <= n /\ parse_int s = Some n.
Proof.
  intros Hne Hd. rewrite parse_int_digits by done.
  destruct (uint_of_string_digits s Hd) as [d Hu].
  unfold parse_digits. destruct s; [done|]. rewrite Hu. simpl.
  eexists. split; [|done]. lia.
Qed.

Example str_of_Z_42 : str_of_Z 42 = "42".
Proof. reflexivity. Qed.

Example str_of_Z_minus_5 : str_of_Z (-5) = "-5".
Proof. reflexivity. Qed.

Example rpartition_img_prop : rpartition "-" "img-prop-3" = ("img-prop", "-", "3").
Proof. reflexivity. Qed.

Example rpartition_absent : rpartition "-" "17" = ("", "", "17").
Proof. reflexivity. Qed.

Example int_padded : int " 007 " = Ok 7.
Proof. reflexivity. Qed.

Example int_signed : int "+12" = Ok 12.
Proof. reflexivity. Qed.

Example int_empty : parse_int "" = None.
Proof. reflexivity. Qed.

Example int_word : parse_int "abc" = None.
Proof. reflexivity. Qed.

Example str_of_datetime_minutes :
  str_of_datetime (mk_datetime 2010 11 5 9 3 0 0) = "2010-11-05 09:03:00".
Proof. reflexivity. Qed.

End StringFacts.

(** ** The store: rows, constraints and flushes *)

Section StoreFacts.

Lemma lookup_tabulate cols f k :
  tabulate cols f !! k = if decide (k ∈ cols) then Some (f k) else None.
Proof.
  unfold tabulate. induction cols as [|k' l IH].
  - rewrite fmap_nil, list_to_map_nil, lookup_empty.
    rewrite decide_False by apply not_elem_of_nil. done.
  - rewrite fmap_cons, list_to_map_cons, lookup_insert.
    destruct (decide (k' = k)) as [->|Hk].
    + rewrite decide_True by apply list_elem_of_here. done.
    + rewrite IH. destruct (decide (k ∈ l)) as [Hl|Hl].
      * rewrite decide_True by (by apply list_elem_of_further). done.
      * rewrite decide_False; [done|].
        rewrite elem_of_cons. intros [?|?]; congruence.
Qed.

Lemma col_tabulate cols f k :
  k ∈ cols -> col (tabulate cols f) k = f k.
Proof. intros H. unfold col. rewrite lookup_tabulate, decide_True by done. done. Qed.

Lemma col_insert (r : gmap string value) k k' v :
  col (<[k := v]> r) k' = if decide (k = k') then v else col r k'.
Proof. unfold col. rewrite lookup_insert. by case_decide. Qed.

Lemma col_row_of self k :
  k ∈ columns (cls_of self) -> col (row_of self) k = getattr self k.
Proof. apply col_tabulate. Qed.

Lemma getattr_flushed self r k :
  getattr (flushed self r) k =
    match r !! k with Some v => v | None => getattr self k end.
Proof.
  unfold getattr, flushed; simpl. rewrite lookup_union.
  destruct (r !! k), (dict self !! k); done.
Qed.

Lemma id_column c : "id" ∈ columns c.
Proof. destruct c; apply list_elem_of_here. Qed.

Lemma base_column c k : k ∈ base_columns -> k ∈ columns c.
Proof. intros H. destruct c; unfold columns; apply elem_of_app; by right. Qed.

(* same_on *)
Lemma sql_eq_true a b : sql_eq a b = true <-> a <> VNone /\ a = b.
Proof.
  unfold sql_eq. rewrite andb_true_iff, !bool_decide_eq_true. done.
Qed.

Lemma same_on_sym cols r o : same_on cols r o = same_on cols o r.
Proof.
  unfold same_on. induction cols as [|k cols IH]; simpl; [done|].
  rewrite IH. f_equal. apply eq_true_iff_eq. rewrite !sql_eq_true.
  split; intros [H1 H2]; split; congruence.
Qed.

Lemma same_on_id r o :
  same_on ["id"] r o = true <-> col r "id" <> VNone /\ col r "id" = col o "id".
Proof. unfold same_on; simpl. rewrite andb_true_r. apply sql_eq_true. Qed.

Lemma unique_on_snoc cols t r :
  unique_on cols (t ++ [r]) = unique_on cols t && negb (existsb (same_on cols r) t).
Proof.
  induction t as [|o t IH]; simpl; [done|].
  rewrite existsb_app, IH; simpl. rewrite orb_false_r, !negb_orb.
  rewrite (same_on_sym cols o r).
  destruct (same_on cols r o), (existsb (same_on cols o) t), (unique_on cols t),
    (existsb (same_on cols r) t); done.
Qed.

Lemma existsb_false {A} (f : A -> bool) l :
  existsb f l = false <-> Forall (fun x => f x = false) l.
Proof.
  induction l as [|x l IH]; simpl.
  - split; [constructor|done].
  - rewrite orb_false_iff, IH, Forall_cons. done.
Qed.

Lemma unique_on_insert cols t i r :
  unique_on cols t = true ->
  existsb (same_on cols r) (base.delete i t) = false ->
  unique_on cols (<[i := r]> t) = true.
Proof.
  revert i. induction t as [|o t IH]; intros i; simpl; [done|].
  rewrite andb_true_iff, negb_true_iff. intros [Ho Ht].
  destruct i as [|i]; simpl.
  - intros Hr. rewrite Hr, Ht. done.
  - rewrite orb_false_iff. intros [Hro Hr].
    rewrite (IH _ Ht Hr), andb_true_r, negb_true_iff.
    rewrite existsb_false in Ho |- *.
    rewrite existsb_false in Hr.
    clear IH Ht. revert i Hr. induction Ho as [|x t Hx Ho IH]; intros i Hr; [done|].
    destruct i as [|i]; simpl in *.
    + constructor; [by rewrite same_on_sym|done].
    + inversion Hr; subst. constructor; [done|]. by apply IH.
Qed.

Lemma forallb_insert {A} (f : A -> bool) l i x :
  forallb f l = true -> f x = true -> forallb f (<[i := x]> l) = true.
Proof.
  revert i. induction l as [|y l IH]; intros i; simpl; [done|].
  rewrite andb_true_iff. intros [Hy Hl] Hx.
  destruct i; simpl; rewrite ?Hx, ?Hy, ?Hl; auto.
  rewrite IH; auto.
Qed.

(* check_constraints *)
Lemma check_constraints_Ok c r others :
  check_constraints c r others = Ok tt ->
  is_int (col r "id") = true /\
  existsb (same_on ["id"] r) others = false /\
  Forall (fun u => existsb (same_on u r) others = false) (unique_constraints c).
Proof.
  unfold check_constraints.
  destruct (List.find _ (columns c)); [done|].
  destruct (col r "id") eqn:Eid; try done.
  destruct (existsb (same_on ["id"] r) others) eqn:Epk; [done|].
  destruct (List.find _ (unique_constraints c)) eqn:Eu; [done|].
  intros _. repeat split; try done.
  apply Forall_forall. intros u Hu.
  apply list_elem_of_In in Hu. apply (find_none _ _ Eu) in Hu. done.
Qed.

Lemma table_ok_snoc c t r :
  table_ok c t = true -> check_constraints c r t = Ok tt ->
  table_ok c (t ++ [r]) = true.
Proof.
  unfold table_ok. rewrite !andb_true_iff. intros [[Hint Hpk] Hu] Hc.
  apply check_constraints_Ok in Hc as (Hi & Hp & Hq).
  repeat split.
  - rewrite forallb_app, Hint; simpl. by rewrite Hi.
  - rewrite unique_on_snoc, Hpk, Hp. done.
  - rewrite forallb_forall in Hu |- *. intros u Hin.
    rewrite unique_on_snoc, (Hu u Hin); simpl.
    rewrite Forall_forall in Hq.
    by rewrite (Hq u (proj2 (list_elem_of_In _ _) Hin)).
Qed.

Lemma table_ok_insert c t i r :
  table_ok c t = true -> check_constraints c r (base.delete i t) = Ok tt ->
  table_ok c (<[i := r]> t) = true.
Proof.
  unfold table_ok. rewrite !andb_true_iff. intros [[Hint Hpk] Hu] Hc.
  apply check_constraints_Ok in Hc as (Hi & Hp & Hq).
  repeat split.
  - by apply forallb_insert.
  - by apply unique_on_insert.
  - rewrite forallb_forall in Hu |- *. intros u Hin.
    apply unique_on_insert; [by apply Hu|].
    rewrite Forall_forall in Hq. by apply Hq, list_elem_of_In.
Qed.

(* ---------- rows written by a flush ---------- *)

Lemma lookup_insert_row self now t k :
  k ∉ columns (cls_of self) -> insert_row self now t !! k = None.
Proof.
  intros Hk. unfold insert_row.
  assert (k <> "id") as Hid by (intros ->; apply Hk, id_column).
  destruct (col _ "id"); rewrite ?lookup_insert_ne by done;
    rewrite lookup_tabulate, decide_False by done; done.
Qed.

Lemma col_insert_row self now t k :
  k ∈ columns (cls_of self) -> k <> "id" ->
  col (insert_row self now t) k =
    match getattr self k with
    | VNone => default VNone (column_default (cls_of self) k now)
    | v => v
    end.
Proof.
  intros Hk Hid. unfold insert_row.
  destruct (col _ "id"); rewrite ?col_insert, ?decide_False by done;
    by rewrite col_tabulate.
Qed.

Lemma col_insert_row_id self now t :
  col (insert_row self now t) "id" =
    match getattr self "id" with
    | VNone => VInt (next_id t)
    | v => v
    end.
Proof.
  unfold insert_row. rewrite (col_tabulate _ _ "id") by apply id_column.
  assert (column_default (cls_of self) "id" now = None) as -> by (by destruct (cls_of self)).
  destruct (getattr self "id") eqn:E; simpl;
    rewrite ?col_insert, ?decide_True by done; try done;
    rewrite col_tabulate by apply id_column; rewrite E; done.
Qed.

Lemma update_row_eq self old now :
  update_row self old now =
    if bool_decide (getattr self "updated_at" = col old "updated_at")
    then <["updated_at" := VTime now]> (row_of self) else row_of self.
Proof. unfold update_row. destruct (cls_of self) eqn:E; reflexivity. Qed.

Lemma lookup_row_of self k :
  row_of self !! k =
    if decide (k ∈ columns (cls_of self)) then Some (getattr self k) else None.
Proof. apply lookup_tabulate. Qed.

Lemma lookup_update_row self old now k :
  k ∉ columns (cls_of self) -> update_row self old now !! k = None.
Proof.
  intros Hk. rewrite update_row_eq.
  assert (k <> "updated_at") as Hne.
  { intros ->. apply Hk, base_column. repeat constructor. }
  case_bool_decide; rewrite ?lookup_insert_ne by done;
    rewrite lookup_row_of, decide_False by done; done.
Qed.

Lemma col_update_row self old now k :
  k ∈ columns (cls_of self) -> k <> "updated_at" ->
  col (update_row self old now) k = getattr self k.
Proof.
  intros Hk Hne. rewrite update_row_eq.
  case_bool_decide; rewrite ?col_insert, ?decide_False by done;
    by apply col_row_of.
Qed.

Lemma col_update_row_updated_at self old now :
  col (update_row self old now) "updated_at" =
    if bool_decide (getattr self "updated_at" = col old "updated_at")
    then VTime now else getattr self "updated_at".
Proof.
  rewrite update_row_eq. case_bool_decide.
  - rewrite col_insert, decide_True by done. done.
  - apply col_row_of, base_column. repeat constructor.
Qed.

Lemma col_lookup (r : gmap string value) k :
  is_Some (r !! k) -> r !! k = Some (col r k).
Proof. intros [v Hv]. unfold col. by rewrite Hv. Qed.

Lemma insert_row_is_Some self now t k :
  k ∈ columns (cls_of self) -> is_Some (insert_row self now t !! k).
Proof.
  intros Hk. unfold insert_row.
  destruct (col _ "id"); rewrite ?lookup_insert; try case_decide; eauto;
    rewrite lookup_tabulate, decide_True by done; eauto.
Qed.

Lemma update_row_is_Some self old now k :
  k ∈ columns (cls_of self) -> is_Some (update_row self old now !! k).
Proof.
  intros Hk. rewrite update_row_eq.
  case_bool_decide; rewrite ?lookup_insert; try case_decide; eauto;
    rewrite lookup_row_of, decide_True by done; eauto.
Qed.

Lemma getattr_flushed_col self r k :
  is_Some (r !! k) -> getattr (flushed self r) k = col r k.
Proof. intros H. rewrite getattr_flushed, (col_lookup r k H). done. Qed.

Lemma getattr_flushed_other self r k :
  r !! k = None -> getattr (flushed self r) k = getattr self k.
Proof. intros H. rewrite getattr_flushed, H. done. Qed.

Lemma flush_spec self now s : flush_outcome self now s (flush self now s).
Proof.
  unfold flush. destruct (identity self) as [key|] eqn:Ek.
  - unfold flush_update.
    destruct (list_find _ _) as [[i old]|] eqn:Ef; [|constructor].
    apply list_find_Some in Ef as (Hi & Hold & _).
    destruct (is_clean self old) eqn:Ec; [by econstructor|].
    destruct (check_constraints _ _ _) as [[]|x] eqn:Ech; [|constructor].
    by eapply flush_updated.
  - unfold flush_insert.
    destruct (check_constraints _ _ _) as [[]|x] eqn:Ech; [|constructor].
    by eapply flush_inserted.
Qed.

Lemma table_set_table s c t : table (set_table s c t) c = t.
Proof. by destruct c. Qed.

Lemma table_set_table_ne s c c' t : c <> c' -> table (set_table s c t) c' = table s c'.
Proof. by destruct c, c'. Qed.

Lemma same_on_id_false r o :
  is_int (col r "id") = true -> same_on ["id"] r o = false -> col r "id" <> col o "id".
Proof.
  intros Hi Hs He. apply not_true_iff_false in Hs. apply Hs, same_on_id.
  split; [|done]. by destruct (col r "id").
Qed.

Lemma table_ok_cons c r t :
  table_ok c (r :: t) = true ->
  is_int (col r "id") = true /\
  Forall (fun o => col r "id" <> col o "id") t /\
  table_ok c t = true.
Proof.
  unfold table_ok; simpl. rewrite !andb_true_iff, negb_true_iff.
  intros [[[Hi Hint] [Hr Hpk]] Hu]. split; [done|]. split.
  - apply existsb_false in Hr. eapply Forall_impl; [exact Hr|].
    intros o Ho. by apply same_on_id_false.
  - repeat split; try done.
    rewrite forallb_forall in Hu |- *. intros u Hin.
    specialize (Hu u Hin). simpl in Hu. by apply andb_true_iff in Hu as [_ ?].
Qed.

Lemma table_ok_is_int c t r :
  table_ok c t = true -> r ∈ t -> is_int (col r "id") = true.
Proof.
  unfold table_ok. rewrite !andb_true_iff. intros [[Hint _] _] Hr.
  rewrite forallb_forall in Hint. by apply Hint, list_elem_of_In.
Qed.

Lemma table_ok_pk_inj c t i j a b :
  table_ok c t = true -> t !! i = Some a -> t !! j = Some b ->
  col a "id" = col b "id" -> i = j.
Proof.
  revert i j. induction t as [|r t IH]; intros i j Hok Ha Hb Hab; [done|].
  apply table_ok_cons in Hok as (Hi & Hr & Hok). rewrite Forall_forall in Hr.
  destruct i as [|i], j as [|j]; simpl in *; simplify_eq; try done.
  - exfalso. eapply Hr; [|done]. by eapply list_elem_of_lookup_2.
  - exfalso. eapply Hr; [|done]. by eapply list_elem_of_lookup_2.
  - f_equal. by eapply IH.
Qed.

Lemma table_ok_pk_unique c t a b :
  table_ok c t = true -> a ∈ t -> b ∈ t -> col a "id" = col b "id" -> a = b.
Proof.
  intros Hok [i Hi]%list_elem_of_lookup_1 [j Hj]%list_elem_of_lookup_1 Hab.
  assert (i = j) as -> by by eapply table_ok_pk_inj. congruence.
Qed.

Lemma table_ok_find c t i old key :
  table_ok c t = true -> t !! i = Some old -> col old "id" = VInt key ->
  list_find (fun r => col r "id" = VInt key) t = Some (i, old).
Proof.
  intros Hok Hi Hid. apply list_find_Some. repeat split; try done.
  intros j y Hj Hlt Hy.
  assert (j = i) by (eapply table_ok_pk_inj; eauto; congruence). lia.
Qed.

Lemma filter_pk c t r :
  table_ok c t = true -> r ∈ t ->
  filter (fun x => col x "id" = col r "id") t = [r].
Proof.
  induction t as [|a t IH]; intros Hok Hr; [by apply elem_of_nil in Hr|].
  pose proof Hok as (Hi & Ha & Hok')%table_ok_cons.
  destruct (decide (a = r)) as [->|Hne].
  - rewrite filter_cons_True by done. f_equal.
    clear -Ha. induction Ha as [|o t Ho Ha IH]; [done|].
    rewrite filter_cons_False by congruence. done.
  - apply elem_of_cons in Hr as [?|Hr]; [congruence|].
    rewrite filter_cons_False; [by apply IH|].
    rewrite Forall_forall in Ha. by apply Ha.
Qed.

(* ---------- what a flush leaves behind ---------- *)

Lemma column_default_None c k now :
  k ∉ columns c -> column_default c k now = None /\ k <> "id".
Proof.
  intros Hk. split.
  - unfold column_default.
    destruct (decide (k = "created_at")) as [->|];
      [exfalso; apply Hk, base_column; repeat constructor|].
    destruct (decide (k = "deleted")) as [->|];
      [exfalso; apply Hk, base_column; repeat constructor|].
    destruct (decide (c = Image ∧ k = "is_public")) as [[-> ->]|]; [|done].
    exfalso; apply Hk. repeat constructor.
  - intros ->. apply Hk, id_column.
Qed.


Lemma flush_getattr self now s k :
  k <> "updated_at" ->
  getattr self k <> VNone \/ (column_default (cls_of self) k now = None /\ k <> "id") ->
  getattr (flush self now s).1.1 k = getattr self k.
Proof.
  intros Hup Hk. destruct (flush_spec self now s)
    as [x|key i old|r Hid -> Hc|key i old r Hid Hi Hold Hcl -> Hc];
    simpl; try done.
  - destruct (decide (k ∈ columns (cls_of self))) as [Hin|Hin].
    + rewrite getattr_flushed_col by by apply insert_row_is_Some.
      destruct (decide (k = "id")) as [->|Hne].
      * rewrite col_insert_row_id. destruct Hk as [Hk|[_ Hk]]; [|done].
        by destruct (getattr self "id").
      * rewrite col_insert_row by done.
        destruct (getattr self k) eqn:E; try done.
        destruct Hk as [Hk|[-> _]]; done.
    + by rewrite getattr_flushed_other by by apply lookup_insert_row.
  - destruct (decide (k ∈ columns (cls_of self))) as [Hin|Hin].
    + rewrite getattr_flushed_col by by apply update_row_is_Some.
      by apply col_update_row.
    + by rewrite getattr_flushed_other by by apply lookup_update_row.
Qed.

Lemma flush_cls self now s : cls_of (flush self now s).1.1 = cls_of self.
Proof. by destruct (flush_spec self now s). Qed.

Lemma flush_length self now s c :
  (length (table s c) <= length (table (flush self now s).1.2 c))%nat.
Proof.
  destruct (flush_spec self now s)
    as [x|key i old|r Hid -> Hc|key i old r Hid Hi Hold Hcl -> Hc];
    simpl; try done.
  - destruct (decide (cls_of self = c)) as [<-|Hne].
    + rewrite table_set_table, length_app. lia.
    + by rewrite table_set_table_ne.
  - destruct (decide (cls_of self = c)) as [<-|Hne].
    + by rewrite table_set_table, length_insert.
    + by rewrite table_set_table_ne.
Qed.

Lemma flush_other_table self now s c :
  c <> cls_of self -> table (flush self now s).1.2 c = table s c.
Proof.
  intros Hne.
  destruct (flush_spec self now s); simpl; try done;
    by rewrite table_set_table_ne.
Qed.

Lemma flush_failure self now s x :
  (flush self now s).2 = Raise x -> flush self now s = (self, s, Raise x).
Proof. destruct (flush_spec self now s); simpl; intros; simplify_eq; done. Qed.

Lemma store_ok_table s c : store_ok s -> table_ok c (table s c) = true.
Proof. intros [H1 H2]. by destruct c. Qed.

Lemma store_ok_set_table s c t :
  store_ok s -> table_ok c t = true -> store_ok (set_table s c t).
Proof. intros [H1 H2] Ht. destruct c; split; done. Qed.

(** The invariant holds of the empty store and every flush keeps it. *)
Lemma store_ok_empty : store_ok (mk_session [] []).
Proof. by split. Qed.

Lemma flush_store_ok self now s : store_ok s -> store_ok (flush self now s).1.2.
Proof.
  intros Hok.
  destruct (flush_spec self now s)
    as [x|key i old|r Hid -> Hc|key i old r Hid Hi Hold Hcl -> Hc];
    simpl; try done.
  - apply store_ok_set_table; [done|].
    apply table_ok_snoc; [by apply store_ok_table|done].
  - apply store_ok_set_table; [done|].
    apply table_ok_insert; [by apply store_ok_table|done].
Qed.

(** After a successful flush the object's row is in its table. *)
Lemma flush_row self now s :
  (flush self now s).2 = Ok tt ->
  exists r, r ∈ table (flush self now s).1.2 (cls_of self) /\
    forall k, k ∈ columns (cls_of self) ->
      col r k = getattr (flush self now s).1.1 k.
Proof.
  destruct (flush_spec self now s)
    as [x|key i old Hid Hi Hold Hcl|r Hid -> Hc|key i old r Hid Hi Hold Hcl -> Hc];
    simpl; try done; intros _.
  - exists old. split; [by eapply list_elem_of_lookup_2|].
    intros k Hk. unfold is_clean in Hcl. rewrite forallb_forall in Hcl.
    apply list_elem_of_In, Hcl in Hk. by apply bool_decide_eq_true in Hk.
  - eexists. split.
    + rewrite table_set_table. apply elem_of_app. right. apply list_elem_of_here.
    + intros k Hk. by rewrite getattr_flushed_col by by apply insert_row_is_Some.
  - eexists. split.
    + rewrite table_set_table. eapply list_elem_of_lookup_2.
      apply list_lookup_insert_eq. by eapply lookup_lt_Some.
    + intros k Hk. by rewrite getattr_flushed_col by by apply update_row_is_Some.
Qed.

(** A flush rewrites at most the row of the object it flushes: every
    other row stays. *)
Lemma flush_keeps_rows self now s c r0 :
  r0 ∈ table s c ->
  r0 ∈ table (flush self now s).1.2 c \/
  (c = cls_of self /\ exists key, identity self = Some key /\ col r0 "id" = VInt key).
Proof.
  intros Hr0.
  destruct (flush_spec self now s)
    as [x|key i old|r Hid -> Hc|key i old r Hid Hi Hold Hcl -> Hc]; simpl; auto.
  - left. destruct (decide (cls_of self = c)) as [<-|Hne].
    + rewrite table_set_table. apply elem_of_app. by left.
    + by rewrite table_set_table_ne.
  - destruct (decide (cls_of self = c)) as [<-|Hne].
    + apply list_elem_of_lookup_1 in Hr0 as [j Hj].
      destruct (decide (i = j)) as [->|Hij].
      * right. split; [done|]. exists key. split; [done|]. congruence.
      * left. rewrite table_set_table. eapply list_elem_of_lookup_2.
        by rewrite list_lookup_insert_ne.
    + left. by rewrite table_set_table_ne.
Qed.

Lemma load_in_sync c s r :
  table_ok c (table s c) = true -> r ∈ table s c -> in_sync (load c r) s.
Proof.
  intros Hok Hr. pose proof (table_ok_is_int _ _ _ Hok Hr) as Hint.
  destruct (col r "id") as [| |key| |] eqn:Hkey; try done.
  exists key, r. unfold load; simpl. rewrite Hkey.
  split; [done|]. split; [done|]. split; [done|].
  unfold is_clean. apply forallb_forall. intros k _. by apply bool_decide_eq_true.
Qed.

(** A successful flush leaves the object in sync with the store. *)
Lemma flush_in_sync self now s :
  (flush self now s).2 = Ok tt ->
  in_sync (flush self now s).1.1 (flush self now s).1.2.
Proof.
  destruct (flush_spec self now s)
    as [x|key i old Hid Hi Hold Hcl|r Hid -> Hc|key i old r Hid Hi Hold Hcl -> Hc];
    simpl; try done; intros _.
  - exists key, old. split; [done|]. split; [by eapply list_elem_of_lookup_2|]. done.
  - set (r := insert_row self now (table s (cls_of self))) in *.
    apply check_constraints_Ok in Hc as (Hint & _).
    destruct (col r "id") as [| |key| |] eqn:Hkey; try done.
    exists key, r. simpl. rewrite Hkey, table_set_table.
    split; [done|]. split; [apply elem_of_app; right; apply list_elem_of_here|].
    split; [done|]. unfold is_clean. apply forallb_forall. intros k Hk.
    apply bool_decide_eq_true. simpl in Hk.
    apply getattr_flushed_col, insert_row_is_Some. by apply list_elem_of_In.
  - set (r := update_row self old now) in *.
    apply check_constraints_Ok in Hc as (Hint & _).
    destruct (col r "id") as [| |key'| |] eqn:Hkey; try done.
    exists key', r. simpl. rewrite Hkey, table_set_table.
    split; [done|]. split.
    { eapply list_elem_of_lookup_2. apply list_lookup_insert_eq. by eapply lookup_lt_Some. }
    split; [done|]. unfold is_clean. apply forallb_forall. intros k Hk.
    apply bool_decide_eq_true. simpl in Hk.
    apply getattr_flushed_col, update_row_is_Some. by apply list_elem_of_In.
Qed.

Lemma flush_in_sync_noop (self : Model) (now : datetime) (s : Session) :
  table_ok (cls_of self) (table s (cls_of self)) = true ->
  in_sync self s -> flush self now s = (self, s, Ok tt).
Proof.
  intros Hok (key & old & Hid & Hold & Hkey & Hclean).
  apply list_elem_of_lookup_1 in Hold as [i Hi].
  unfold flush. rewrite Hid. unfold flush_update.
  by rewrite (table_ok_find _ _ _ _ _ Hok Hi Hkey), Hclean.
Qed.

Lemma filter_insert_length {A} (P : A -> Prop) `{!forall x, Decision (P x)}
    (l : list A) (i : nat) (old r : A) :
  l !! i = Some old ->
  (length (filter P (<[i := r]> l)) + (if decide (P old) then 1 else 0)
   = length (filter P l) + (if decide (P r) then 1 else 0))%nat.
Proof.
  intros Hi. rewrite insert_take_drop by by eapply lookup_lt_Some.
  rewrite <- (take_drop_middle l i old Hi) at 3.
  rewrite !filter_app, !length_app, !filter_cons.
  destruct (decide (P old)), (decide (P r)); simpl; lia.
Qed.

Lemma is_clean_col self old k :
  is_clean self old = true -> k ∈ columns (cls_of self) ->
  getattr self k = col old k.
Proof.
  intros Hcl Hk. unfold is_clean in Hcl. rewrite forallb_forall in Hcl.
  apply list_elem_of_In, Hcl in Hk. by apply bool_decide_eq_true in Hk.
Qed.


(** The two ways a flush succeeds, seen from the table: a row is
    appended for a new object, or the row stored under the key of a
    persistent object is rewritten in place (by itself when nothing
    changed). Either way the row holds the column attributes of the
    object after the flush. *)
Lemma flush_success_cases self now s :
  (flush self now s).2 = Ok tt ->
  let out := flush self now s in
  let t := table s (cls_of self) in
  (identity self = None /\
   exists r, table out.1.2 (cls_of self) = (t ++ [r])%list /\
     forall k, k ∈ columns (cls_of self) -> col r k = getattr out.1.1 k) \/
  (exists key i old r,
     identity self = Some key /\ t !! i = Some old /\ col old "id" = VInt key /\
     table out.1.2 (cls_of self) = <[i := r]> t /\
     forall k, k ∈ columns (cls_of self) -> col r k = getattr out.1.1 k).
Proof.
  destruct (flush_spec self now s)
    as [x|key i old Hid Hi Hold Hcl|r Hid -> Hc|key i old r Hid Hi Hold Hcl -> Hc];
    simpl; try done; intros _.
  - right. exists key, i, old, old. split; [done|]. split; [done|]. split; [done|].
    split; [by rewrite list_insert_id|].
    intros k Hk. symmetry. by apply is_clean_col.
  - left. split; [done|]. eexists. split; [by rewrite table_set_table|].
    intros k Hk. by rewrite getattr_flushed_col by by apply insert_row_is_Some.
  - right. exists key, i, old, (update_row self old now).
    split; [done|]. split; [done|]. split; [done|].
    split; [by rewrite table_set_table|].
    intros k Hk. by rewrite getattr_flushed_col by by apply update_row_is_Some.
Qed.

(** After a successful flush the object is persistent under its id. *)
Lemma flush_identity self now s :
  (flush self now s).2 = Ok tt ->
  exists n, identity (flush self now s).1.1 = Some n /\
    getattr (flush self now s).1.1 "id" = VInt n.
Proof.
  intros Hok. destruct (flush_in_sync self now s Hok) as (n & old & Hid & _ & Hn & Hcl).
  exists n. split; [done|]. rewrite <- Hn. apply is_clean_col; [done|apply id_column].
Qed.



End StoreFacts.

(** * The properties claimed by the specification *)

Section Claims.

Variable get_session : unit -> Session.

Lemma getattr_load c r k : getattr (load c r) k = col r k.
Proof. done. Qed.

(** C1. For either mapped class, [all(deleted)] holds exactly the objects
    loaded from the rows whose [deleted] column equals the argument, and
    [count(deleted)] is the number of those rows (the length of [all]);
    with the default [deleted=False] no object flagged deleted is in the
    result. *)
Theorem all_count_match_deleted_flag (c : cls) (session : option Session)
    (deleted : bool) :
  let s := Models.session_or_default get_session session in
  (forall m, m ∈ Models.all get_session c session deleted <->
     exists r, r ∈ table s c /\ col r "deleted" = VBool deleted /\ m = load c r) /\
  Models.count get_session c session deleted =
    length (filter (fun r => col r "deleted" = VBool deleted) (table s c)) /\
  Models.count get_session c session deleted =
    length (Models.all get_session c session deleted) /\
  (forall m, m ∈ Models.all get_session c session false ->
     getattr m "deleted" <> VBool true).
Proof.
  intros s. unfold Models.all, Models.count, q_all, q_count, filter_by, query.
  fold s. repeat split.
  - intros (r & -> & Hr)%list_elem_of_fmap. apply list_elem_of_filter in Hr as [Hd Hr].
    eauto.
  - intros (r & Hr & Hd & ->). apply list_elem_of_fmap. exists r. split; [done|].
    by apply list_elem_of_filter.
  - by rewrite length_fmap.
  - intros m (r & -> & Hr)%list_elem_of_fmap.
    apply list_elem_of_filter in Hr as [Hd Hr].
    rewrite getattr_load, Hd. done.
Qed.

Lemma filter_by_id_deleted obj_id deleted (t : list (gmap string value)) :
  filter_by "deleted" (VBool deleted) (filter_by "id" obj_id t) =
  filter (fun r => col r "id" = obj_id /\ col r "deleted" = VBool deleted) t.
Proof.
  unfold filter_by. induction t as [|r t IH]; [done|].
  destruct (decide (col r "id" = obj_id)) as [Hi|Hi].
  - rewrite (filter_cons_True (fun r => col r "id" = obj_id)) by done.
    destruct (decide (col r "deleted" = VBool deleted)) as [Hd|Hd].
    + rewrite !filter_cons_True by done. by rewrite IH.
    + rewrite (filter_cons_False (fun r => col r "deleted" = VBool deleted)) by done.
      rewrite filter_cons_False by (intros [_ ?]; done). done.
  - rewrite (filter_cons_False (fun r => col r "id" = obj_id)) by done.
    rewrite filter_cons_False by (intros [? _]; done). done.
Qed.

Lemma matching_unique c t r obj_id deleted :
  table_ok c t = true ->
  r ∈ filter (fun r => col r "id" = obj_id /\ col r "deleted" = VBool deleted) t ->
  filter (fun r => col r "id" = obj_id /\ col r "deleted" = VBool deleted) t = [r].
Proof.
  intros Hok [[Hi Hd] Hr]%list_elem_of_filter.
  rewrite <- filter_by_id_deleted. unfold filter_by.
  assert (filter (fun x => col x "id" = obj_id) t = [r]) as ->.
  { rewrite <- (filter_pk c t r Hok Hr). apply list_filter_iff. intros x. by rewrite Hi. }
  by rewrite filter_cons_True.
Qed.

(** C4. On a table whose primary keys are unique (the store's
    guarantee), [find(obj_id, deleted)] returns the one row whose [id] is
    the argument and whose [deleted] flag matches; it raises [NotFound]
    exactly when no row matches, and it raises nothing else. *)
Theorem find_unique_or_NotFound (c : cls) (obj_id : value)
    (session : option Session) (deleted : bool) :
  let s := Models.session_or_default get_session session in
  let matching :=
    filter (fun r => col r "id" = obj_id /\ col r "deleted" = VBool deleted) (table s c) in
  table_ok c (table s c) = true ->
  (forall r, r ∈ matching ->
     matching = [r] /\ Models.find get_session c obj_id session deleted = Ok (load c r)) /\
  (Models.find get_session c obj_id session deleted
     = Raise (NotFound ("No model for id " ++ py_str obj_id)) <-> matching = []) /\
  (forall m, Models.find get_session c obj_id session deleted = Ok m ->
     m ∈ Models.all get_session c session deleted /\ getattr m "id" = obj_id) /\
  (forall x, Models.find get_session c obj_id session deleted = Raise x ->
     x = NotFound ("No model for id " ++ py_str obj_id)).
Proof.
  intros s matching Hok.
  assert (forall r, r ∈ matching -> matching = [r]) as Huniq
    by (intros r; by apply (matching_unique c)).
  assert (forall r, r ∈ matching ->
            r ∈ table s c /\ col r "id" = obj_id /\ col r "deleted" = VBool deleted)
    as Hin.
  { intros x Hx. apply list_elem_of_filter in Hx as [[? ?] ?]. done. }
  unfold Models.find, query. fold s. rewrite filter_by_id_deleted. fold matching.
  clearbody matching. destruct matching as [|a [|b l]]; simpl.
  - split; [|split; [|split]]; try done.
    + intros r Hr. by apply elem_of_nil in Hr.
    + by intros x [= <-].
  - destruct (Hin a (list_elem_of_here _ _)) as (Ha & Hi & Hd).
    split; [|split; [|split]]; try done.
    + intros r0 ->%list_elem_of_singleton. done.
    + intros m [= <-]. split; [|done].
      unfold Models.all, q_all, filter_by, query. fold s.
      apply list_elem_of_fmap. exists a. split; [done|]. by apply list_elem_of_filter.
  - exfalso. specialize (Huniq a (list_elem_of_here _ _)). done.
Qed.

Lemma rpartition_suffix_split (h t : string) :
  all_chars no_dash t = true -> (rpartition "-" (h ++ "-" ++ t)).2 = t.
Proof.
  intros Ht. unfold rpartition.
  change (h ++ "-" ++ t) with (h ++ String "-" t).
  rewrite rsplit_last_app by by apply rsplit_last_absent. done.
Qed.

Lemma rpartition_suffix_whole (s : string) :
  all_chars no_dash s = true -> (rpartition "-" s).2 = s.
Proof. intros Hs. unfold rpartition. by rewrite rsplit_last_absent. Qed.

Lemma rpartition_suffix_no_dash (s : string) :
  all_chars no_dash (rpartition "-" s).2 = true.
Proof.
  unfold rpartition. destruct (rsplit_last "-" s) as [[h t]|] eqn:E; simpl.
  - apply rsplit_last_Some in E as [_ E]. by apply rsplit_last_None.
  - by apply rsplit_last_None.
Qed.

(** C5. For every string, [find_by_str] takes the text after the last
    ['-'] (the whole string when there is none), reads it with [int] and
    calls [find] with that integer and the same deletion filter (a
    non-empty run of digits is always accepted); when [int] rejects the
    text, as for an empty suffix, the call fails with [ValueError].
    [find_by_str("img-7")] is [find(7)] on [Image] and
    [find_by_str("img-prop-3")] is [find(3)] on [ImageProperty]. *)
Theorem find_by_str_parses_suffix (c : cls) (str_id : string)
    (session : option Session) (deleted : bool) :
  let suffix := (rpartition "-" str_id).2 in
  (forall h t, str_id = h ++ "-" ++ t -> all_chars no_dash t = true -> suffix = t) /\
  (all_chars no_dash str_id = true -> suffix = str_id) /\
  (forall n, parse_int suffix = Some n ->
     Models.find_by_str get_session c str_id session deleted
       = Models.find get_session c (VInt n) session deleted) /\
  (parse_int suffix = None ->
     Models.find_by_str get_session c str_id session deleted
       = Raise (ValueError ("invalid literal for int() with base 10: '" ++ suffix ++ "'"))) /\
  (suffix <> "" -> all_chars is_digit suffix = true ->
     exists n, 0 <= n /\
       Models.find_by_str get_session c str_id session deleted
         = Models.find get_session c (VInt n) session deleted) /\
  Models.find_by_str get_session c "img-" session deleted
    = Raise (ValueError "invalid literal for int() with base 10: ''") /\
  Models.find_by_str get_session Image "img-7" session deleted
    = Models.find get_session Image (VInt 7) session deleted /\
  Models.find_by_str get_session ImageProperty "img-prop-3" session deleted
    = Models.find get_session ImageProperty (VInt 3) session deleted /\
  Models.find_by_str get_session c "img-x7" session deleted
    = Raise (ValueError "invalid literal for int() with base 10: 'x7'").
Proof.
  intros suffix.
  assert (forall n, parse_int suffix = Some n ->
            Models.find_by_str get_session c str_id session deleted
              = Models.find get_session c (VInt n) session deleted) as Hsome.
  { intros n Hn. unfold Models.find_by_str, int. fold suffix. by rewrite Hn. }
  split; [|split; [|split; [|split; [|split; [|split; [|split; [|split]]]]]]];
    try done.
  - intros h t -> Ht. by apply rpartition_suffix_split.
  - apply rpartition_suffix_whole.
  - intros Hn. unfold Models.find_by_str, int. fold suffix. by rewrite Hn.
  - intros Hne Hd. destruct (parse_int_accepts_digits suffix Hne Hd) as (n & Hn & Hp).
    exists n. split; [done|]. by apply Hsome.
Qed.


(** C7. Assigning to an [Image] a [type] outside
    [machine, kernel, ramdisk, raw], or a [status] outside
    [available, pending, disabled], raises [Invalid] with the offending
    value in its message and leaves the object, and so the previous
    value of the attribute, as it was; the same holds for item
    assignment. *)
Theorem invalid_assignment_rejected (self : Model) (v : value) :
  cls_of self = Image ->
  (v ∉ Models.image_types ->
     Models.setattr self "type" v =
       (self, Raise (Invalid ("Invalid image type '" ++ py_str v ++ "' for image."))) /\
     Models.__setitem__ self "type" v =
       (self, Raise (Invalid ("Invalid image type '" ++ py_str v ++ "' for image.")))) /\
  (v ∉ Models.image_statuses ->
     Models.setattr self "status" v =
       (self, Raise (Invalid ("Invalid status '" ++ py_str v ++ "' for image."))) /\
     Models.__setitem__ self "status" v =
       (self, Raise (Invalid ("Invalid status '" ++ py_str v ++ "' for image.")))).
Proof.
  intros Hc. unfold Models.__setitem__, Models.setattr. rewrite Hc. simpl.
  unfold Models.validate_type, Models.validate_status.
  split; intros Hv; rewrite bool_decide_eq_false_2 by done; done.
Qed.

Lemma filter_ext_in {A} (P Q : A -> Prop) `{!forall x, Decision (P x)}
    `{!forall x, Decision (Q x)} (l : list A) :
  (forall x, x ∈ l -> P x <-> Q x) -> filter P l = filter Q l.
Proof.
  induction l as [|a l IH]; intros Hext; [done|].
  assert (filter P l = filter Q l) as IH'.
  { apply IH. intros x Hx. apply Hext. by apply list_elem_of_further. }
  pose proof (Hext a (list_elem_of_here _ _)) as Hiff.
  destruct (decide (P a)) as [Ha|Ha].
  - rewrite (filter_cons_True P) by done.
    rewrite (filter_cons_True Q) by by apply Hiff.
    by rewrite IH'.
  - rewrite (filter_cons_False P) by done.
    rewrite (filter_cons_False Q) by (by intros ?%Hiff).
    done.
Qed.

Lemma column_not_guarded (c : cls) (key : string) :
  key ∈ columns c -> key ∉ Models.guarded_names.
Proof.
  intros Hk Hg. unfold Models.guarded_names in Hg.
  rewrite !elem_of_cons in Hg.
  destruct Hg as [->|[->|[->|Hg]]]; [| | |by apply elem_of_nil in Hg];
    revert Hk; apply (bool_decide_eq_false_1 (_ ∈ columns c));
    by destruct c.
Qed.

Lemma column_not_relationship (c c' : cls) (key : string) :
  key ∈ columns c -> key ∉ Models.relationships c'.
Proof.
  intros Hk Hr.
  assert (key = "properties" \/ key = "image") as [->| ->].
  { destruct c'; apply list_elem_of_singleton in Hr; auto. }
  all: revert Hk; apply (bool_decide_eq_false_1 (_ ∈ columns c));
    by destruct c.
Qed.

Lemma column_not_str_id (c : cls) (key : string) :
  key ∈ columns c -> key <> "str_id".
Proof.
  intros Hk ->. revert Hk. apply (bool_decide_eq_false_1 (_ ∈ columns c)).
  by destruct c.
Qed.

(** On a name that is neither guarded nor the relationship attribute,
    [setattr] is the read-only check followed by the validator. *)
Lemma setattr_unguarded (self : Model) (key : string) (v : value) :
  key ∉ Models.guarded_names -> key ∉ Models.relationships (cls_of self) ->
  Models.setattr self key v =
    if decide (key = "str_id")
    then (self, Raise (AttributeError "can't set attribute"))
    else
      match Models.validates (cls_of self) key with
      | Some validator =>
          match validator key v with
          | Ok v' =>
              ({| cls_of := cls_of self; dict := <[key := v']> (dict self);
                  identity := identity self |}, Ok tt)
          | Raise x => (self, Raise x)
          end
      | None =>
          ({| cls_of := cls_of self; dict := <[key := v]> (dict self);
              identity := identity self |}, Ok tt)
      end.
Proof.
  intros Hg Hr. unfold Models.setattr.
  destruct (decide (key = "str_id")); [done|].
  rewrite (decide_False (P := key ∈ Models.guarded_names)) by done.
  by rewrite (decide_False (P := key ∈ Models.relationships (cls_of self))) by done.
Qed.

Lemma setattr_plain (self : Model) (key : string) (v : value) :
  key ∈ columns (cls_of self) -> Models.validates (cls_of self) key = None ->
  Models.setattr self key v =
    ({| cls_of := cls_of self; dict := <[key := v]> (dict self);
        identity := identity self |}, Ok tt).
Proof.
  intros Hk Hv.
  rewrite setattr_unguarded
    by eauto using column_not_guarded, column_not_relationship.
  rewrite decide_False by eauto using column_not_str_id.
  by rewrite Hv.
Qed.

Lemma validates_base (c : cls) (key : string) :
  key ∈ base_columns -> Models.validates c key = None.
Proof.
  intros Hk. destruct c; [|done]. unfold Models.validates.
  unfold base_columns in Hk. rewrite !elem_of_cons in Hk.
  destruct Hk as [->|[->|[->|[->|Hk]]]]; try done. by apply elem_of_nil in Hk.
Qed.

(** The object that [delete] hands to [save]. *)
Lemma delete_unfold (self : Model) (session : option Session) (now flush_now : datetime) :
  Models.delete get_session self session now flush_now =
    Models.save get_session
      {| cls_of := cls_of self;
         dict := <["deleted_at" := VTime now]> (<["deleted" := VBool true]> (dict self));
         identity := identity self |} session flush_now.
Proof.
  unfold Models.delete.
  rewrite (setattr_plain self "deleted")
    by (first [apply validates_base|apply base_column]; repeat constructor).
  rewrite setattr_plain
    by (first [apply validates_base|apply base_column]; repeat constructor).
  done.
Qed.

(** C2. [delete()] sets [deleted] to [True] and [deleted_at] to the
    current time on the entity itself, whose class, identity and other
    attributes stay, and then is [save()] of the entity so marked; an id
    that the entity has is kept. No row is removed: no table gets
    shorter, and every row other than the entity's own stays as it is.
    When the call returns normally, the entity is persistent under its
    id and its own row carries the flag and the time stamp: for a
    stored entity the row stored under its key is rewritten in place,
    for a new entity a flagged row is appended. No object that [all()]
    returns with the default filter has the entity's id or the key it
    was stored under, and [count()] with the default filter is the
    count before the call less the entity's own row if that was
    live. *)
Theorem delete_is_soft (self : Model) (session : option Session)
    (now flush_now : datetime) :
  let s := Models.session_or_default get_session session in
  let c := cls_of self in
  let marked :=
    {| cls_of := cls_of self;
       dict := <["deleted_at" := VTime now]> (<["deleted" := VBool true]> (dict self));
       identity := identity self |} in
  let out := Models.delete get_session self session now flush_now in
  let flagged r :=
    col r "id" = getattr out.1.1 "id" /\
    col r "deleted" = VBool true /\ col r "deleted_at" = VTime now in
  store_ok s ->
  out = Models.save get_session marked session flush_now /\
  (forall k, k <> "deleted" -> k <> "deleted_at" -> getattr marked k = getattr self k) /\
  cls_of out.1.1 = cls_of self /\
  getattr out.1.1 "deleted" = VBool true /\
  getattr out.1.1 "deleted_at" = VTime now /\
  (getattr self "id" <> VNone -> getattr out.1.1 "id" = getattr self "id") /\
  (forall c', (length (table s c') <= length (table out.1.2 c'))%nat) /\
  (forall c' r0, r0 ∈ table s c' ->
     r0 ∈ table out.1.2 c' \/
     (c' = c /\ exists key, identity self = Some key /\ col r0 "id" = VInt key)) /\
  (out.2 = Ok tt ->
     (exists n, identity out.1.1 = Some n /\ getattr out.1.1 "id" = VInt n) /\
     (forall key, identity self = Some key ->
        exists i old r,
          table s c !! i = Some old /\ col old "id" = VInt key /\
          table out.1.2 c = <[i := r]> (table s c) /\ flagged r /\
          (Models.count get_session c (Some out.1.2) false
             + (if decide (col old "deleted" = VBool false) then 1 else 0)
           = Models.count get_session c session false)%nat) /\
     (identity self = None ->
        exists r,
          table out.1.2 c = (table s c ++ [r])%list /\ flagged r /\
          Models.count get_session c (Some out.1.2) false
            = Models.count get_session c session false) /\
     (exists r, r ∈ table out.1.2 c /\ flagged r) /\
     (forall m, m ∈ Models.all get_session c (Some out.1.2) false ->
        getattr m "id" <> getattr out.1.1 "id" /\
        forall key, identity self = Some key -> getattr m "id" <> VInt key) /\
     Models.count get_session c (Some out.1.2) false =
       length (filter (fun r => col r "deleted" = VBool false /\
                                col r "id" <> getattr out.1.1 "id")
                 (table out.1.2 c))).
Proof.
  intros s c marked out flagged Hok. subst out flagged. rewrite delete_unfold.
  fold marked. unfold Models.save. fold s.
  assert (getattr marked "deleted" = VBool true) as Hd.
  { unfold getattr, marked; simpl.
    rewrite lookup_insert_ne by done. by rewrite lookup_insert_eq. }
  assert (getattr marked "deleted_at" = VTime now) as Ha.
  { unfold getattr, marked; simpl. by rewrite lookup_insert_eq. }
  assert (forall k, k <> "deleted" -> k <> "deleted_at" ->
            getattr marked k = getattr self k) as Hother.
  { intros k H1 H2. unfold getattr, marked; simpl. by rewrite !lookup_insert_ne. }
  assert (getattr (flush marked flush_now s).1.1 "deleted" = VBool true) as Hd'.
  { rewrite flush_getattr; [done|done|]. left. by rewrite Hd. }
  assert (getattr (flush marked flush_now s).1.1 "deleted_at" = VTime now) as Ha'.
  { rewrite flush_getattr; [done|done|]. left. by rewrite Ha. }
  split; [done|]. split; [done|]. split; [exact (flush_cls marked flush_now s)|].
  split; [done|]. split; [done|].
  split.
  { intros Hid. rewrite flush_getattr; [by apply Hother|done|].
    left. by rewrite Hother. }
  split; [intros c'; apply flush_length|].
  split; [intros c' r0 Hr0; by apply (flush_keeps_rows marked)|].
  intros Hsucc.
  pose proof (store_ok_table _ c Hok) as Ht.
  pose proof (store_ok_table _ c (flush_store_ok marked flush_now s Hok)) as Ht'.
  assert (forall r, (forall k, k ∈ columns c ->
                       col r k = getattr (flush marked flush_now s).1.1 k) ->
            col r "id" = getattr (flush marked flush_now s).1.1 "id" /\
            col r "deleted" = VBool true /\ col r "deleted_at" = VTime now) as Hflag.
  { intros r Hcols. split; [apply Hcols, id_column|].
    split; rewrite Hcols by (apply base_column; repeat constructor); done. }
  destruct (flush_row marked flush_now s Hsucc) as (r1 & Hr1 & Hcols1).
  change (cls_of marked) with c in *.
  assert (forall r0, r0 ∈ table (flush marked flush_now s).1.2 c ->
            col r0 "deleted" = VBool false ->
            col r0 "id" <> getattr (flush marked flush_now s).1.1 "id") as Hex.
  { intros r0 Hr0 Hdel Hid.
    assert (r0 = r1) as ->.
    { eapply table_ok_pk_unique; [exact Ht'|done|done|].
      rewrite Hid. symmetry. apply Hcols1, id_column. }
    rewrite (Hcols1 "deleted") in Hdel by (apply base_column; repeat constructor).
    congruence. }
  pose proof (flush_success_cases marked flush_now s Hsucc) as Hcases.
  cbn zeta in Hcases. change (cls_of marked) with c in Hcases.
  change (identity marked) with (identity self) in Hcases.
  split; [by apply flush_identity|].
  split; [|split; [|split; [|split]]].
  - intros key Hkey.
    destruct Hcases as [[Hnone _]|(key' & i & old & r & Hid & Hi & Hold & Htab & Hcols)];
      [congruence|].
    assert (key' = key) as -> by congruence.
    destruct (Hflag r Hcols) as (Hrid & Hrd & Hra).
    exists i, old, r. split; [done|]. split; [done|]. split; [done|].
    split; [done|].
    unfold Models.count, q_count, filter_by, query; simpl. fold s. rewrite Htab.
    pose proof (filter_insert_length (fun x => col x "deleted" = VBool false)
                  (table s c) i old r Hi) as Hlen.
    rewrite (decide_False (P := col r "deleted" = VBool false)) in Hlen by congruence.
    lia.
  - intros Hnone.
    destruct Hcases as [[_ (r & Htab & Hcols)]|(key' & i & old & r & Hid & _)];
      [|congruence].
    destruct (Hflag r Hcols) as (Hrid & Hrd & Hra).
    exists r. split; [done|]. split; [done|].
    unfold Models.count, q_count, filter_by, query; simpl. fold s. rewrite Htab.
    rewrite filter_app.
    rewrite (filter_cons_False (fun x => col x "deleted" = VBool false)) by congruence.
    by rewrite filter_nil, app_nil_r.
  - exists r1. split; [done|]. by apply Hflag.
  - intros m Hm. unfold Models.all, q_all, filter_by, query in Hm. simpl in Hm.
    apply list_elem_of_fmap in Hm as (r0 & -> & Hr0).
    apply list_elem_of_filter in Hr0 as [Hdel Hr0].
    rewrite getattr_load. split; [by apply Hex|].
    intros key Hkey Hr0k.
    destruct Hcases as [[Hnone _]|(key' & i & old & r & Hid & Hi & Hold & Htab & Hcols)];
      [congruence|].
    assert (key' = key) as -> by congruence.
    destruct (Hflag r Hcols) as (Hrid & Hrd & Hra).
    rewrite Htab in Hr0. apply list_elem_of_lookup_1 in Hr0 as [j Hj].
    destruct (decide (i = j)) as [<-|Hne].
    + rewrite list_lookup_insert_eq in Hj by by eapply lookup_lt_Some.
      congruence.
    + rewrite list_lookup_insert_ne in Hj by done.
      apply Hne. eapply table_ok_pk_inj; [exact Ht|done|done|congruence].
  - unfold Models.count, q_count, filter_by, query. simpl. f_equal.
    apply filter_ext_in. intros r0 Hr0. split; [|by intros [? _]].
    intros Hdel. split; [done|]. by apply Hex.
Qed.

(** [setattr] either raises and leaves the object as it was, or stores
    one value under the name. *)
Lemma setattr_cases (self : Model) (k : string) (v : value) :
  (exists x, Models.setattr self k v = (self, Raise x)) \/
  (exists v', Models.setattr self k v =
     ({| cls_of := cls_of self; dict := <[k := v']> (dict self);
         identity := identity self |}, Ok tt)).
Proof.
  unfold Models.setattr.
  destruct (decide (k = "str_id")); [by left; eexists|].
  destruct (decide (k ∈ Models.guarded_names)); [by left; eexists|].
  destruct (decide (k ∈ Models.relationships (cls_of self))).
  { destruct (Models.set_relationship (cls_of self) v);
      [by left; eexists|by right; eexists]. }
  destruct (Models.validates (cls_of self) k) as [f|];
    [destruct (f k v)|]; first [by left; eexists|by right; eexists].
Qed.

Lemma getattr_setattr_ne (self : Model) (k k' : string) (v : value) :
  k <> k' -> getattr (Models.setattr self k v).1 k' = getattr self k'.
Proof.
  intros Hne.
  destruct (setattr_cases self k v) as [[x ->]|[v' ->]]; [done|].
  unfold getattr; simpl. by rewrite lookup_insert_ne.
Qed.

Lemma setattr_cls (self : Model) (k : string) (v : value) :
  cls_of (Models.setattr self k v).1 = cls_of self.
Proof. by destruct (setattr_cases self k v) as [[x ->]|[v' ->]]. Qed.


Lemma construct_getattr_ne (self m : Model) (kwargs : list (string * value)) (k' : string) :
  k' ∉ kwargs.*1 -> Models.construct self kwargs = Ok m ->
  getattr m k' = getattr self k'.
Proof.
  revert self. induction kwargs as [|[k v] rest IH]; intros self Hk; simpl.
  - by intros [= <-].
  - rewrite fmap_cons, not_elem_of_cons in Hk. destruct Hk as [Hne Hk].
    destruct (negb _); [done|].
    destruct (Models.setattr self k v) as [self' [[]|x]] eqn:E; [|done].
    intros Hm. rewrite (IH self' Hk Hm).
    change self' with (self', @Ok unit tt).1. rewrite <- E.
    by apply getattr_setattr_ne.
Qed.

(** C3 (amended). [deleted_at] is [None] on an object constructed without
    it and [save()] leaves it as it is; every [delete()] sets it to the
    current time of that call, whatever it held before. *)
Theorem deleted_at_stamped_by_each_delete :
  (forall c kwargs m, "deleted_at" ∉ kwargs.*1 -> Models.new c kwargs = Ok m ->
     getattr m "deleted_at" = VNone) /\
  (forall self session now,
     getattr (Models.save get_session self session now).1.1 "deleted_at"
       = getattr self "deleted_at") /\
  (forall self session now flush_now,
     getattr (Models.delete get_session self session now flush_now).1.1 "deleted_at"
       = VTime now).
Proof.
  split; [|split].
  - intros c kwargs m Hk Hm. unfold Models.new in Hm.
    by rewrite (construct_getattr_ne _ _ _ _ Hk Hm).
  - intros self session now. unfold Models.save.
    apply flush_getattr; [done|]. right. split; [|done]. by destruct (cls_of self).
  - intros self session now flush_now. rewrite delete_unfold. unfold Models.save.
    rewrite flush_getattr; [|done|].
    + unfold getattr; simpl. by rewrite lookup_insert_eq.
    + left. unfold getattr; simpl. by rewrite lookup_insert_eq.
Qed.

Lemma next_id_above (t : list (gmap string value)) (o : gmap string value) (n : Z) :
  o ∈ t -> col o "id" = VInt n -> n < next_id t.
Proof.
  unfold next_id. induction t as [|r t IH]; intros Ho Hn; [by apply elem_of_nil in Ho|].
  simpl. apply elem_of_cons in Ho as [->|Ho].
  - rewrite Hn. lia.
  - specialize (IH Ho Hn). destruct (col r "id"); lia.
Qed.


Lemma next_id_fresh (t : list (gmap string value)) (r : gmap string value) :
  col r "id" = VInt (next_id t) -> existsb (same_on ["id"] r) t = false.
Proof.
  intros Hr. apply existsb_false, Forall_forall. intros o Ho.
  apply not_true_iff_false. intros [_ Heq]%same_on_id.
  rewrite Hr in Heq. symmetry in Heq.
  pose proof (next_id_above t o _ Ho Heq). lia.
Qed.

Lemma find_not_null_None (c : cls) (r : gmap string value) :
  (forall k, k ∈ columns c -> not_null c k = true -> col r k <> VNone) ->
  List.find (fun k => not_null c k && bool_decide (col r k = VNone)) (columns c) = None.
Proof.
  intros H. induction (columns c) as [|k l IH]; [done|]. simpl.
  destruct (not_null c k) eqn:Hn; simpl.
  - rewrite bool_decide_eq_false_2 by (apply H; [apply list_elem_of_here|done]).
    apply IH. intros k' Hk'. apply H. by apply list_elem_of_further.
  - apply IH. intros k' Hk'. apply H. by apply list_elem_of_further.
Qed.

Lemma unique_on_lookup (cols : list string) (t : list (gmap string value)) i j a b :
  unique_on cols t = true -> t !! i = Some a -> t !! j = Some b -> i <> j ->
  same_on cols a b = false.
Proof.
  revert i j. induction t as [|r t IH]; intros i j Hu Ha Hb Hne; [done|].
  simpl in Hu. apply andb_true_iff in Hu as [Hr Hu].
  apply negb_true_iff, existsb_false in Hr. rewrite Forall_forall in Hr.
  destruct i as [|i], j as [|j]; simpl in *; simplify_eq.
  - apply Hr. by eapply list_elem_of_lookup_2.
  - rewrite same_on_sym. apply Hr. by eapply list_elem_of_lookup_2.
  - eapply (IH i j); eauto.
Qed.

Lemma others_no_pk (c : cls) (t : list (gmap string value)) i old r :
  table_ok c t = true -> t !! i = Some old -> col r "id" = col old "id" ->
  existsb (same_on ["id"] r) (base.delete i t) = false.
Proof.
  intros Hok Hi Hr. apply existsb_false, Forall_forall. intros o Ho.
  apply not_true_iff_false. intros [_ Heq]%same_on_id.
  apply list_elem_of_lookup_1 in Ho as [j Hj].
  destruct (decide (j < i)%nat) as [Hlt|Hge].
  - rewrite list_lookup_delete_lt in Hj by done.
    assert (i = j) by (eapply table_ok_pk_inj; eauto; congruence). lia.
  - rewrite list_lookup_delete_ge in Hj by lia.
    assert (i = S j) by (eapply table_ok_pk_inj; eauto; congruence). lia.
Qed.

(** C10 (amended). Saving keeps the store's constraints: after any
    [save()], no two rows of [image_properties] carry the same
    [image_id] and the same key, where the key is set (not NULL).
    Saving a new property whose [image_id] and key are those of a row
    already stored fails with the store's [IntegrityError] for the
    unique constraint and writes nothing. (Properties without a key
    are not covered by the constraint.) *)
Theorem property_pairs_stay_unique (self : Model) (session : option Session)
    (now : datetime) :
  let s := Models.session_or_default get_session session in
  let out := Models.save get_session self session now in
  store_ok s ->
  store_ok out.1.2 /\
  (forall i j a b,
     image_properties out.1.2 !! i = Some a ->
     image_properties out.1.2 !! j = Some b -> i <> j ->
     ~ (col a "image_id" <> VNone /\ col a "key" <> VNone /\
        col a "image_id" = col b "image_id" /\ col a "key" = col b "key")) /\
  (cls_of self = ImageProperty -> identity self = None -> getattr self "id" = VNone ->
   forall o image_id key,
     o ∈ image_properties s ->
     col o "image_id" = VInt image_id -> col o "key" = VStr key ->
     getattr self "image_id" = VInt image_id -> getattr self "key" = VStr key ->
     out = (self, s, Raise (IntegrityError "columns image_id, key are not unique"))).
Proof.
  intros s out Hok. subst out. unfold Models.save. fold s.
  pose proof (flush_store_ok self now s Hok) as Hok'.
  split; [done|]. split.
  - intros i j a b Ha Hb Hne (Hn1 & Hn2 & He1 & He2).
    destruct Hok' as [_ Hp]. unfold table_ok in Hp.
    rewrite !andb_true_iff in Hp. destruct Hp as [_ Hu]. simpl in Hu.
    rewrite andb_true_r in Hu.
    pose proof (unique_on_lookup _ _ _ _ _ _ Hu Ha Hb Hne) as Hs.
    apply not_true_iff_false in Hs. apply Hs. unfold same_on; simpl.
    rewrite andb_true_r, andb_true_iff, !sql_eq_true. done.
  - intros Hc Hid Hnone o image_id key Ho Hoi Hok2 Hsi Hsk.
    unfold flush. rewrite Hid. unfold flush_insert. rewrite Hc.
    change (table s ImageProperty) with (image_properties s).
    set (r := insert_row self now (image_properties s)).
    assert (col r "id" = VInt (next_id (image_properties s))) as Hrid.
    { unfold r. rewrite col_insert_row_id. by rewrite Hnone. }
    assert (col r "image_id" = VInt image_id) as Hri.
    { unfold r. rewrite col_insert_row; [by rewrite Hsi| |done].
      rewrite Hc. repeat constructor. }
    assert (col r "key" = VStr key) as Hrk.
    { unfold r. rewrite col_insert_row; [by rewrite Hsk| |done].
      rewrite Hc. repeat constructor. }
    unfold check_constraints.
    rewrite find_not_null_None; cycle 1.
    { intros k Hk Hn. unfold not_null in Hn.
      apply orb_true_iff in Hn as [Hn|Hn]; apply bool_decide_eq_true in Hn.
      - subst k. by rewrite Hrid.
      - destruct Hn as [_ ->]. by rewrite Hri. }
    rewrite Hrid, next_id_fresh by done. simpl.
    assert (existsb (same_on ["image_id"; "key"] r) (image_properties s) = true) as ->.
    { apply existsb_exists. exists o. split; [by apply list_elem_of_In|].
      unfold same_on; simpl. rewrite andb_true_r, andb_true_iff, !sql_eq_true.
      rewrite Hri, Hrk, Hoi, Hok2. done. }
    done.
Qed.

Lemma update_getattr_ne (self : Model) (values : list (string * value)) (k' : string) :
  k' ∉ values.*1 -> getattr (Models.update self values).1 k' = getattr self k'.
Proof.
  revert self. induction values as [|[k v] rest IH]; intros self Hk; [done|].
  rewrite fmap_cons, not_elem_of_cons in Hk. destruct Hk as [Hne Hk]. simpl.
  unfold Models.__setitem__.
  pose proof (getattr_setattr_ne self k k' v (not_eq_sym Hne)) as Hs.
  destruct (Models.setattr self k v) as [self' [[]|x]]; simpl in *; [|done].
  by rewrite IH.
Qed.

Lemma flush_update_changed (self : Model) (key : Z) (now : datetime) (s : Session)
    (i : nat) (old : gmap string value) :
  let r := update_row self old now in
  table_ok (cls_of self) (table s (cls_of self)) = true ->
  identity self = Some key ->
  table s (cls_of self) !! i = Some old ->
  col old "id" = VInt key ->
  is_clean self old = false ->
  check_constraints (cls_of self) r (base.delete i (table s (cls_of self))) = Ok tt ->
  flush self now s =
    (flushed self r, set_table s (cls_of self) (<[i := r]> (table s (cls_of self))), Ok tt).
Proof.
  intros r Hok Hid Hi Hold Hcl Hc. unfold flush. rewrite Hid.
  unfold flush_update. rewrite (table_ok_find _ _ _ _ _ Hok Hi Hold), Hcl.
  fold r. by rewrite Hc.
Qed.





Lemma validates_Some_column (c : cls) (k : string)
    (f : string -> value -> result value) :
  Models.validates c k = Some f -> k ∈ columns c.
Proof.
  destruct c; [|done]. unfold Models.validates.
  destruct (decide (k = "type")) as [->|]; [intros _; repeat constructor|].
  destruct (decide (k = "status")) as [->|]; [intros _; repeat constructor|done].
Qed.

Lemma setattr_enum (m : Model) (k : string) (v : value) (k' : string)
    (enum : list value) (f : string -> value -> result value) :
  Models.validates (cls_of m) k' = Some f ->
  (forall key w w', f key w = Ok w' -> w' ∈ enum) ->
  getattr m k' = VNone \/ getattr m k' ∈ enum ->
  getattr (Models.setattr m k v).1 k' = VNone \/
  getattr (Models.setattr m k v).1 k' ∈ enum.
Proof.
  intros Hval Hf Hm. destruct (decide (k = k')) as [->|Hne].
  - pose proof (validates_Some_column _ _ _ Hval) as Hcol.
    rewrite setattr_unguarded
      by eauto using column_not_guarded, column_not_relationship.
    destruct (decide (k' = "str_id")); [done|].
    rewrite Hval. destruct (f k' v) as [w|x] eqn:E; simpl; [|done].
    right. unfold getattr; simpl. rewrite lookup_insert_eq. simpl. by eapply Hf.
  - by rewrite getattr_setattr_ne.
Qed.

Lemma validate_type_Ok (key : string) (w w' : value) :
  Models.validate_type key w = Ok w' -> w' ∈ Models.image_types.
Proof.
  unfold Models.validate_type. case_bool_decide; simpl; [|done]. by intros [= <-].
Qed.

Lemma validate_status_Ok (key : string) (w w' : value) :
  Models.validate_status key w = Ok w' -> w' ∈ Models.image_statuses.
Proof.
  unfold Models.validate_status. case_bool_decide; simpl; [|done]. by intros [= <-].
Qed.

Lemma setattr_enum_or_unset (m : Model) (k : string) (v : value) :
  Models.enum_or_unset m -> Models.enum_or_unset (Models.setattr m k v).1.
Proof.
  intros (Hc & Ht & Hs). split; [by rewrite setattr_cls|]. split.
  - eapply setattr_enum; [by rewrite Hc| |done]. apply validate_type_Ok.
  - eapply setattr_enum; [by rewrite Hc| |done]. apply validate_status_Ok.
Qed.

Lemma update_enum_or_unset (m : Model) (values : list (string * value)) :
  Models.enum_or_unset m -> Models.enum_or_unset (Models.update m values).1.
Proof.
  revert m. induction values as [|[k v] rest IH]; intros m Hm; [done|]. simpl.
  unfold Models.__setitem__.
  pose proof (setattr_enum_or_unset m k v Hm) as Hs.
  destruct (Models.setattr m k v) as [m' [[]|x]]; simpl in *; [|done].
  by apply IH.
Qed.

Lemma construct_enum_or_unset (self m : Model) (kwargs : list (string * value)) :
  Models.enum_or_unset self -> Models.construct self kwargs = Ok m -> Models.enum_or_unset m.
Proof.
  revert self. induction kwargs as [|[k v] rest IH]; intros self Hself; simpl.
  - by intros [= <-].
  - destruct (negb _); [done|].
    pose proof (setattr_enum_or_unset self k v Hself) as Hs.
    destruct (Models.setattr self k v) as [self' [[]|x]]; simpl in *; [|done].
    by apply IH.
Qed.

Lemma save_enum_or_unset (m : Model) (session : option Session) (now : datetime) :
  Models.enum_or_unset m -> Models.enum_or_unset (Models.save get_session m session now).1.1.
Proof.
  intros (Hc & Ht & Hs). unfold Models.save. split; [by rewrite flush_cls|].
  rewrite !flush_getattr; try done; right; by rewrite Hc.
Qed.

Lemma setattr_invalid (m : Model) (k : string) (v : value) :
  cls_of m = Image ->
  (k = "type" /\ v ∉ Models.image_types) \/ (k = "status" /\ v ∉ Models.image_statuses) ->
  exists msg, Models.setattr m k v = (m, Raise (Invalid msg)).
Proof.
  intros Hc [[-> Hv]|[-> Hv]]; unfold Models.setattr; rewrite Hc; simpl;
    unfold Models.validate_type, Models.validate_status;
    rewrite bool_decide_eq_false_2 by done; simpl; eauto.
Qed.

Lemma update_invalid (m : Model) (before after : list (string * value))
    (k : string) (v : value) :
  cls_of m = Image ->
  (k = "type" /\ v ∉ Models.image_types) \/ (k = "status" /\ v ∉ Models.image_statuses) ->
  exists x, (Models.update m (before ++ (k, v) :: after)).2 = Raise x.
Proof.
  intros Hc Hkv. revert m Hc. induction before as [|[k0 v0] before IH]; intros m Hc; simpl.
  - unfold Models.__setitem__.
    destruct (setattr_invalid m k v Hc Hkv) as [msg ->]. eauto.
  - unfold Models.__setitem__.
    pose proof (setattr_cls m k0 v0) as Hcls.
    destruct (Models.setattr m k0 v0) as [m' [[]|x]]; simpl in *; [|eauto].
    apply IH. congruence.
Qed.

Lemma construct_invalid (m : Model) (before after : list (string * value))
    (k : string) (v : value) :
  cls_of m = Image ->
  (k = "type" /\ v ∉ Models.image_types) \/ (k = "status" /\ v ∉ Models.image_statuses) ->
  exists x, Models.construct m (before ++ (k, v) :: after) = Raise x.
Proof.
  intros Hc Hkv. revert m Hc. induction before as [|[k0 v0] before IH]; intros m Hc; simpl.
  - destruct (negb _); [eauto|].
    destruct (setattr_invalid m k v Hc Hkv) as [msg ->]. eauto.
  - destruct (negb _); [eauto|].
    pose proof (setattr_cls m k0 v0) as Hcls.
    destruct (Models.setattr m k0 v0) as [m' [[]|x]]; simpl in *; [|eauto].
    apply IH. congruence.
Qed.

(** What a query hands out is the image of a stored row. *)
Lemma find_loaded (c : cls) (obj_id : value) (session : option Session)
    (deleted : bool) (m : Model) :
  Models.find get_session c obj_id session deleted = Ok m ->
  exists r, r ∈ table (Models.session_or_default get_session session) c /\ m = load c r.
Proof.
  unfold Models.find, q_one, filter_by, query.
  remember (filter (fun r => col r "deleted" = VBool deleted)
              (filter (fun r => col r "id" = obj_id)
                 (table (Models.session_or_default get_session session) c))) as q eqn:E.
  destruct q as [|r [|r' q']]; [done| |done].
  intros [= <-]. exists r. split; [|done].
  assert (r ∈ [r]) as Hr by apply list_elem_of_here.
  rewrite E in Hr.
  apply list_elem_of_filter in Hr as [_ Hr].
  by apply list_elem_of_filter in Hr as [_ Hr].
Qed.

Lemma load_enum_or_unset (r : gmap string value) :
  Models.row_valid r -> Models.enum_or_unset (load Image r).
Proof. intros [Ht Hs]. split; [done|]. by rewrite !getattr_load. Qed.

Lemma loaded_enum_or_unset (s : Session) (r : gmap string value) :
  Models.images_valid s -> r ∈ table s Image -> Models.enum_or_unset (load Image r).
Proof.
  intros Hv Hr. apply load_enum_or_unset.
  unfold Models.images_valid in Hv. rewrite Forall_forall in Hv. by apply Hv.
Qed.

(** A flush writes the type and the status of the object, so a valid
    image keeps the image rows valid. *)
Lemma flush_images_valid (m : Model) (now : datetime) (s : Session) :
  Models.enum_or_unset m -> Models.images_valid s ->
  Models.images_valid (flush m now s).1.2.
Proof.
  intros (Hc & Ht & Hs) Hv.
  assert (forall r, col r "type" = getattr m "type" ->
            col r "status" = getattr m "status" -> Models.row_valid r) as Hrow.
  { intros r Hrt Hrs. split; by rewrite ?Hrt, ?Hrs. }
  assert ("type" ∈ columns (cls_of m) /\ "status" ∈ columns (cls_of m)) as [Hct Hcs].
  { rewrite Hc. split; repeat constructor. }
  destruct (flush_spec m now s)
    as [x|key i old Hid Hi Hold Hcl|r Hid -> Hck|key i old r Hid Hi Hold Hcl -> Hck];
    simpl; try done.
  - rewrite Hc. unfold Models.images_valid; simpl.
    apply Forall_app. split; [done|]. apply Forall_singleton.
    apply Hrow; rewrite col_insert_row by done; rewrite Hc.
    + by destruct (getattr m "type").
    + by destruct (getattr m "status").
  - rewrite Hc. unfold Models.images_valid; simpl.
    apply Forall_insert; [done|].
    apply Hrow; by rewrite col_update_row.
Qed.

Lemma delete_enum_or_unset (m : Model) (session : option Session)
    (now flush_now : datetime) :
  Models.enum_or_unset m ->
  exists marked, Models.enum_or_unset marked /\
    Models.delete get_session m session now flush_now
      = Models.save get_session marked session flush_now.
Proof.
  intros (Hc & Ht & Hs). eexists. split; [|apply delete_unfold].
  split; [done|]. unfold getattr in *; simpl.
  by rewrite !lookup_insert_ne by done.
Qed.

Lemma image_built_enum_or_unset (m : Model) :
  Models.image_built get_session m -> Models.enum_or_unset m.
Proof.
  induction 1 as [kwargs m Hnew
                 |obj_id session deleted m Hv Hfind
                 |str_id session deleted m Hv Hfind
                 |session deleted m Hv Hin
                 |m k v _ IH|m k v _ IH|m values _ IH
                 |m session now _ IH|m session now flush_now _ IH].
  - unfold Models.new in Hnew. eapply construct_enum_or_unset; [|exact Hnew].
    split; [done|]. split; by left.
  - apply find_loaded in Hfind as (r & Hr & ->). by eapply loaded_enum_or_unset.
  - unfold Models.find_by_str in Hfind.
    destruct (int _) as [n|x]; [|done].
    apply find_loaded in Hfind as (r & Hr & ->). by eapply loaded_enum_or_unset.
  - unfold Models.all, q_all, filter_by, query in Hin.
    apply list_elem_of_fmap in Hin as (r & -> & Hr).
    apply list_elem_of_filter in Hr as [_ Hr]. by eapply loaded_enum_or_unset.
  - by apply setattr_enum_or_unset.
  - by apply setattr_enum_or_unset.
  - by apply update_enum_or_unset.
  - by apply save_enum_or_unset.
  - destruct (delete_enum_or_unset m session now flush_now IH) as (mk & Hmk & ->).
    by apply save_enum_or_unset.
Qed.

(** C8 (amended). Every assignment path runs the validators of an
    [Image]: an out-of-enumeration [type] or [status] makes [setattr]
    and [__setitem__] raise [Invalid] with the object unchanged, and
    makes [update] and the constructor raise. Nothing is validated when
    an object is loaded, nor for an attribute that is never assigned.
    So on an [Image] that was constructed, or loaded by [find],
    [find_by_str] or [all] from a store whose image rows hold as type
    and status nothing but NULL or a member of the enumeration, and
    then taken through any sequence of attribute assignments, item
    assignments, [update], [save] and [delete], [type] and [status] are
    each either [None] or a member of their enumeration; and [save]
    and [delete] of such an image, like [save] of any property, leave
    the image rows of the store that way. *)
Theorem image_enumerations_validated (m : Model) :
  Models.image_built get_session m ->
  (getattr m "type" = VNone \/ getattr m "type" ∈ Models.image_types) /\
  (getattr m "status" = VNone \/ getattr m "status" ∈ Models.image_statuses) /\
  (forall k v,
     (k = "type" /\ v ∉ Models.image_types) \/
     (k = "status" /\ v ∉ Models.image_statuses) ->
     (exists msg, Models.setattr m k v = (m, Raise (Invalid msg))) /\
     (exists msg, Models.__setitem__ m k v = (m, Raise (Invalid msg))) /\
     (forall before after,
        exists x, (Models.update m (before ++ (k, v) :: after)).2 = Raise x) /\
     (forall before after,
        exists x, Models.new Image (before ++ (k, v) :: after) = Raise x)) /\
  (forall session now,
     Models.images_valid (Models.session_or_default get_session session) ->
     Models.images_valid (Models.save get_session m session now).1.2) /\
  (forall session now flush_now,
     Models.images_valid (Models.session_or_default get_session session) ->
     Models.images_valid (Models.delete get_session m session now flush_now).1.2) /\
  (forall p session now,
     cls_of p = ImageProperty ->
     images (Models.save get_session p session now).1.2
       = images (Models.session_or_default get_session session)).
Proof.
  intros Hm%image_built_enum_or_unset. pose proof Hm as (Hc & Ht & Hs).
  split; [done|]. split; [done|]. split; [|split; [|split]].
  - intros k v Hkv.
    split; [by apply setattr_invalid|]. split; [by apply setattr_invalid|].
    split; intros before after.
    + by apply update_invalid.
    + unfold Models.new. by apply construct_invalid.
  - intros session now Hv. unfold Models.save. by apply flush_images_valid.
  - intros session now flush_now Hv.
    destruct (delete_enum_or_unset m session now flush_now Hm) as (mk & Hmk & ->).
    unfold Models.save. by apply flush_images_valid.
  - intros p session now Hp. unfold Models.save.
    apply (flush_other_table p now _ Image). by rewrite Hp.
Qed.

End Claims.

Lemma find_unique_or_NotFound_witness :
  table_ok Image (table Sample.one_image Image) = true /\
  Models.find Sample.provider Image (VInt 1) (Some Sample.one_image) false
    = Ok (load Image (row_of Sample.ubuntu_saved)) /\
  Models.find Sample.provider Image (VInt 2) (Some Sample.one_image) false
    = Raise (NotFound "No model for id 2").
Proof.
  assert (table_ok Image (table Sample.one_image Image) = true) as Hok
    by (vm_compute; reflexivity).
  split; [exact Hok|].
  destruct (find_unique_or_NotFound Sample.provider Image (VInt 1)
              (Some Sample.one_image) false Hok) as (H1 & _).
  destruct (find_unique_or_NotFound Sample.provider Image (VInt 2)
              (Some Sample.one_image) false Hok) as (_ & H2 & _).
  split.
  - apply H1. vm_compute. apply list_elem_of_here.
  - apply H2. vm_compute. reflexivity.
Defined.

(** ** Instances and counterexamples *)


Lemma invalid_assignment_rejected_witness :
  cls_of Sample.ubuntu = Image /\
  Models.setattr Sample.ubuntu "type" (VStr "vhd") =
    (Sample.ubuntu, Raise (Invalid "Invalid image type 'vhd' for image.")) /\
  getattr (Models.setattr Sample.ubuntu "type" (VStr "vhd")).1 "type" = VStr "machine" /\
  Models.setattr Sample.ubuntu "status" (VStr "killed") =
    (Sample.ubuntu, Raise (Invalid "Invalid status 'killed' for image.")).
Proof.
  assert (cls_of Sample.ubuntu = Image) as Hc by reflexivity.
  destruct (invalid_assignment_rejected Sample.ubuntu (VStr "vhd") Hc) as [Ht _].
  destruct (invalid_assignment_rejected Sample.ubuntu (VStr "killed") Hc) as [_ Hs].
  assert (VStr "vhd" ∉ Models.image_types) as Hv
    by (apply (bool_decide_eq_false_1 (VStr "vhd" ∈ Models.image_types)); reflexivity).
  assert (VStr "killed" ∉ Models.image_statuses) as Hk
    by (apply (bool_decide_eq_false_1 (VStr "killed" ∈ Models.image_statuses));
        reflexivity).
  destruct (Ht Hv) as [Ht1 _]. destruct (Hs Hk) as [Hs1 _].
  split; [done|]. split; [exact Ht1|]. split; [|exact Hs1].
  rewrite Ht1. reflexivity.
Defined.

Lemma delete_is_soft_witness :
  store_ok Sample.one_image /\
  let out := Models.delete Sample.provider Sample.ubuntu_saved
               (Some Sample.one_image) Sample.t1 Sample.t2 in
  out.2 = Ok tt /\
  getattr out.1.1 "deleted" = VBool true /\
  getattr out.1.1 "deleted_at" = VTime Sample.t1 /\
  getattr out.1.1 "id" = getattr Sample.ubuntu_saved "id" /\
  length (table out.1.2 Image) = 1%nat /\
  Models.count Sample.provider Image (Some out.1.2) false = 0%nat /\
  Models.count Sample.provider Image (Some out.1.2) true = 1%nat.
Proof.
  assert (store_ok Sample.one_image) as Hok by (split; vm_compute; reflexivity).
  split; [exact Hok|].
  destruct (delete_is_soft Sample.provider Sample.ubuntu_saved (Some Sample.one_image)
              Sample.t1 Sample.t2 Hok) as (_ & _ & _ & Hd & Ha & Hid & _).
  split; [vm_compute; reflexivity|]. split; [exact Hd|]. split; [exact Ha|].
  split; [apply Hid; vm_compute; discriminate|].
  repeat split; vm_compute; reflexivity.
Defined.

(** Counterexample to C3 as stated: a second [delete()] replaces the
    [deleted_at] that the first one set. *)
Lemma deleted_at_overwritten_by_second_delete :
  let first := Models.delete Sample.provider Sample.ubuntu_saved
                 (Some Sample.one_image) Sample.t1 Sample.t1 in
  let second := Models.delete Sample.provider first.1.1 (Some first.1.2)
                  Sample.t2 Sample.t2 in
  first.2 = Ok tt /\ second.2 = Ok tt /\
  getattr first.1.1 "deleted_at" = VTime Sample.t1 /\
  getattr second.1.1 "deleted_at" = VTime Sample.t2 /\
  getattr second.1.1 "deleted_at" <> getattr first.1.1 "deleted_at" /\
  (fun r => col r "deleted_at") <$> table first.1.2 Image = [VTime Sample.t1] /\
  (fun r => col r "deleted_at") <$> table second.1.2 Image = [VTime Sample.t2].
Proof. vm_compute. repeat split; congruence. Qed.

Lemma deleted_at_stamped_by_each_delete_witness :
  getattr (Models.delete Sample.provider Sample.ubuntu_saved (Some Sample.one_image)
             Sample.t1 Sample.t2).1.1 "deleted_at" = VTime Sample.t1.
Proof.
  destruct (deleted_at_stamped_by_each_delete Sample.provider) as (_ & _ & H).
  apply H.
Defined.


(** Counterexample to C10 as stated: two properties of one image that
    have no key carry the same [(image_id, key)] pair, and both are
    saved: the unique constraint takes NULL keys as distinct. *)
Lemma properties_without_key_share_a_pair :
  let first :=
    Models.save Sample.provider Sample.keyless (Some Sample.one_image) Sample.t1 in
  let second :=
    Models.save Sample.provider Sample.keyless_again (Some first.1.2) Sample.t2 in
  store_ok Sample.one_image /\
  first.2 = Ok tt /\ second.2 = Ok tt /\
  (fun r => (col r "id", col r "image_id", col r "key")) <$> image_properties second.1.2
    = [(VInt 1, VInt 1, VNone); (VInt 2, VInt 1, VNone)].
Proof. vm_compute. repeat split. Qed.

Lemma property_pairs_stay_unique_witness :
  store_ok Sample.with_arch /\
  Models.save Sample.provider Sample.arch_again (Some Sample.with_arch) Sample.t2 =
    (Sample.arch_again, Sample.with_arch,
     Raise (IntegrityError "columns image_id, key are not unique")).
Proof.
  assert (store_ok Sample.with_arch) as Hok by (split; vm_compute; reflexivity).
  split; [exact Hok|].
  destruct (property_pairs_stay_unique Sample.provider Sample.arch_again
              (Some Sample.with_arch) Sample.t2 Hok) as (_ & _ & H).
  apply (H eq_refl eq_refl eq_refl (row_of Sample.arch_saved) 1 "arch");
    try (vm_compute; reflexivity).
  vm_compute. apply list_elem_of_here.
Defined.


Lemma image_enumerations_validated_witness :
  let found := load Image (row_of Sample.ubuntu_saved) in
  Models.image_built Sample.provider found /\
  getattr found "type" ∈ Models.image_types /\
  (exists x, (Models.update found
                [("name", VStr "lucid"); ("type", VStr "vhd")]).2 = Raise x) /\
  Models.images_valid
    (Models.delete Sample.provider found (Some Sample.one_image)
       Sample.t1 Sample.t2).1.2.
Proof.
  intros found.
  assert (Models.images_valid Sample.one_image) as Hv.
  { unfold Models.images_valid.
    assert (images Sample.one_image = [row_of Sample.ubuntu_saved]) as ->
      by (vm_compute; reflexivity).
    apply Forall_singleton. split; right; vm_compute; repeat constructor. }
  assert (Models.image_built Sample.provider found) as Hb.
  { apply (Models.built_find _ (VInt 1) (Some Sample.one_image) false);
      [exact Hv|]. vm_compute. reflexivity. }
  split; [exact Hb|].
  destruct (image_enumerations_validated Sample.provider found Hb)
    as ([Ht|Ht] & _ & Hrej & _ & Hdel & _).
  - vm_compute in Ht. discriminate Ht.
  - split; [exact Ht|].
    assert (VStr "vhd" ∉ Models.image_types) as Hn
      by (apply (bool_decide_eq_false_1 (VStr "vhd" ∈ Models.image_types));
          reflexivity).
    destruct (Hrej "type" (VStr "vhd") (or_introl (conj eq_refl Hn)))
      as (_ & _ & Hu & _).
    split; [apply (Hu [("name", VStr "lucid")] [])|].
    apply (Hdel (Some Sample.one_image) Sample.t1 Sample.t2). exact Hv.
Defined.

(** Counterexample to C8 as stated: an in-memory [Image] can hold a
    type outside the enumeration. An attribute that is never assigned
    is never validated, so [Image(name="ubuntu")] holds the type [None],
    which [validate_type] itself rejects, and is saved that way; and
    loading does not validate, so [find] on a store whose row holds the
    type "vhd" returns an image holding "vhd". *)
Lemma image_can_hold_value_outside_enumeration :
  Models.new Image [("name", VStr "ubuntu")] = Ok Sample.untyped /\
  getattr Sample.untyped "type" = VNone /\
  (getattr Sample.untyped "type" ∉ Models.image_types) /\
  (getattr Sample.untyped "status" ∉ Models.image_statuses) /\
  Models.validate_type "type" (getattr Sample.untyped "type")
    = Raise (Invalid "Invalid image type 'None' for image.") /\
  (Models.save Sample.provider Sample.untyped None Sample.t0).2 = Ok tt /\
  getattr (Models.save Sample.provider Sample.untyped None Sample.t0).1.1 "type" = VNone /\
  store_ok Sample.foreign /\
  (exists m, Models.find Sample.provider Image (VInt 1) (Some Sample.foreign) false = Ok m /\
     getattr m "type" = VStr "vhd" /\
     getattr m "type" <> VNone /\
     getattr m "type" ∉ Models.image_types).
Proof.
  split; [reflexivity|]. split; [reflexivity|].
  split; [apply (bool_decide_eq_false_1 (_ ∈ _)); reflexivity|].
  split; [apply (bool_decide_eq_false_1 (_ ∈ _)); reflexivity|].
  split; [vm_compute; reflexivity|].
  split; [vm_compute; reflexivity|].
  split; [vm_compute; reflexivity|].
  split; [split; vm_compute; reflexivity|].
  eexists. split; [vm_compute; reflexivity|].
  split; [vm_compute; reflexivity|].
  split; [vm_compute; discriminate|].
  apply (bool_decide_eq_false_1 (_ ∈ Models.image_types)). vm_compute. reflexivity.
Qed.


(** * Further properties of the module *)

Section Further.

Variable get_session : unit -> Session.

(** ** [save] *)

Lemma check_constraints_image (r : gmap string value)
    (others : list (gmap string value)) (n : Z) :
  col r "id" = VInt n ->
  existsb (same_on ["id"] r) others = false ->
  check_constraints Image r others = Ok tt.
Proof.
  intros Hid Hpk. unfold check_constraints. rewrite find_not_null_None; cycle 1.
  { intros k Hk Hn. unfold not_null in Hn.
    apply orb_true_iff in Hn as [Hn|Hn]; apply bool_decide_eq_true in Hn.
    - subst k. by rewrite Hid.
    - by destruct Hn. }
  by rewrite Hid, Hpk.
Qed.

Lemma flush_insert_image (self : Model) (now : datetime) (s : Session) :
  cls_of self = Image -> identity self = None -> getattr self "id" = VNone ->
  let r := insert_row self now (images s) in
  col r "id" = VInt (next_id (images s)) /\
  flush self now s = (flushed self r, set_table s Image (images s ++ [r])%list, Ok tt).
Proof.
  intros Hc Hid Hnone r.
  assert (col r "id" = VInt (next_id (images s))) as Hr.
  { unfold r. rewrite col_insert_row_id. by rewrite Hnone. }
  split; [done|]. unfold flush. rewrite Hid. unfold flush_insert. rewrite Hc.
  change (table s Image) with (images s). fold r.
  rewrite (check_constraints_image r (images s) _ Hr); [done|].
  by apply next_id_fresh.
Qed.





(** X3. Saving again right after a successful [save()] changes nothing: no
    row is written, [updated_at] is not refreshed, the object and the
    store are what they were. *)
Theorem second_save_changes_nothing (self : Model) (session : option Session)
    (now later : datetime) :
  let s := Models.session_or_default get_session session in
  let out := Models.save get_session self session now in
  store_ok s -> out.2 = Ok tt ->
  Models.save get_session out.1.1 (Some out.1.2) later = (out.1.1, out.1.2, Ok tt).
Proof.
  intros s out Hok Hsucc. subst out. unfold Models.save in *. fold s in Hsucc |- *.
  simpl. apply flush_in_sync_noop.
  - rewrite flush_cls. apply store_ok_table. by apply flush_store_ok.
  - by apply flush_in_sync.
Qed.

(** ** [delete] *)


(** X5. [delete()] on an image that was never saved saves it: one row is
    appended to [images], flagged deleted and stamped, so the store now
    counts one deleted image more and as many live ones as before. *)
Theorem delete_of_unsaved_image_inserts_it (self : Model)
    (session : option Session) (now flush_now : datetime) :
  let s := Models.session_or_default get_session session in
  let out := Models.delete get_session self session now flush_now in
  cls_of self = Image -> identity self = None -> getattr self "id" = VNone ->
  out.2 = Ok tt /\
  (exists r, images out.1.2 = (images s ++ [r])%list /\
     col r "deleted" = VBool true /\ col r "deleted_at" = VTime now /\
     col r "id" = getattr out.1.1 "id") /\
  Models.count get_session Image (Some out.1.2) true
    = S (Models.count get_session Image (Some s) true) /\
  Models.count get_session Image (Some out.1.2) false
    = Models.count get_session Image (Some s) false.
Proof.
  intros s out Hc Hid Hnone. subst out. rewrite delete_unfold.
  unfold Models.save. fold s.
  set (marked := {| cls_of := cls_of self;
                    dict := <["deleted_at" := VTime now]>
                              (<["deleted" := VBool true]> (dict self));
                    identity := identity self |}).
  assert (getattr marked "id" = VNone) as Hmn.
  { unfold getattr, marked; simpl. by rewrite !lookup_insert_ne by done. }
  destruct (flush_insert_image marked flush_now s Hc Hid Hmn) as [Hr Hflush].
  set (r := insert_row marked flush_now (images s)) in *. rewrite Hflush. simpl.
  assert (col r "deleted" = VBool true) as Hrd.
  { unfold r. rewrite col_insert_row; [| |done].
    - unfold getattr, marked; simpl.
      rewrite lookup_insert_ne by done. by rewrite lookup_insert_eq.
    - apply base_column. repeat constructor. }
  assert (col r "deleted_at" = VTime now) as Hra.
  { unfold r. rewrite col_insert_row; [| |done].
    - unfold getattr, marked; simpl. by rewrite lookup_insert_eq.
    - apply base_column. repeat constructor. }
  split; [done|]. split.
  { exists r. split; [done|]. split; [done|]. split; [done|].
    symmetry. apply getattr_flushed_col. unfold r. apply insert_row_is_Some.
    apply id_column. }
  unfold Models.count, q_count, filter_by, query; simpl.
  rewrite !filter_app, !length_app.
  rewrite (filter_cons_True (fun x => col x "deleted" = VBool true)) by done.
  rewrite (filter_cons_False (fun x => col x "deleted" = VBool false)) by congruence.
  rewrite !filter_nil. simpl. split; lia.
Qed.

(** ** Assignment: [setattr], [__setitem__], [update] *)

Lemma validator_returns_value (c : cls) (k : string) (v v' : value)
    (f : string -> value -> result value) :
  Models.validates c k = Some f -> f k v = Ok v' -> v' = v.
Proof.
  destruct c; [|done]. unfold Models.validates.
  destruct (decide (k = "type")); [intros [= <-]|].
  { unfold Models.validate_type. destruct (negb _); [done|]. by intros [= <-]. }
  destruct (decide (k = "status")); [intros [= <-]|done].
  unfold Models.validate_status. destruct (negb _); [done|]. by intros [= <-].
Qed.

Lemma setattr_accepted (m : Model) (k : string) (v : value) :
  Models.rejected (cls_of m) k v = false ->
  Models.setattr m k v =
    ({| cls_of := cls_of m; dict := <[k := v]> (dict m); identity := identity m |},
     Ok tt).
Proof.
  unfold Models.rejected, Models.setattr.
  rewrite !orb_false_iff, !bool_decide_eq_false. intros [[Hk Hg] Hv].
  rewrite decide_False by done.
  rewrite (decide_False (P := k ∈ Models.guarded_names)) by done.
  destruct (decide (k ∈ Models.relationships (cls_of m))).
  { by destruct (Models.set_relationship (cls_of m) v). }
  destruct (Models.validates (cls_of m) k) as [f|] eqn:Ef; [|done].
  destruct (f k v) as [v'|x] eqn:Efv; [|done].
  by rewrite (validator_returns_value _ _ _ _ _ Ef Efv).
Qed.

Lemma setattr_assignable (m : Model) (k : string) (v : value) :
  Models.assignable (cls_of m) k v = true ->
  Models.setattr m k v =
    ({| cls_of := cls_of m; dict := <[k := v]> (dict m); identity := identity m |},
     Ok tt).
Proof.
  unfold Models.assignable. rewrite andb_true_iff, !negb_true_iff.
  intros [_ Hr]. by apply setattr_accepted.
Qed.

Lemma setattr_rejected (m : Model) (k : string) (v : value) :
  Models.rejected (cls_of m) k v = true ->
  exists x, Models.setattr m k v = (m, Raise x).
Proof.
  unfold Models.rejected, Models.setattr.
  destruct (decide (k = "str_id")) as [->|Hk]; [eauto|].
  rewrite bool_decide_eq_false_2 by done. simpl.
  destruct (decide (k ∈ Models.guarded_names)) as [Hg|Hg]; [eauto|].
  rewrite bool_decide_eq_false_2 by done. simpl.
  destruct (decide (k ∈ Models.relationships (cls_of m))).
  { destruct (Models.set_relationship (cls_of m) v); [eauto|done]. }
  destruct (Models.validates (cls_of m) k) as [f|]; [|done].
  destruct (f k v); [done|eauto].
Qed.

Lemma setattr_Ok_iff (m : Model) (k : string) (v : value) :
  (Models.setattr m k v).2 = Ok tt <-> Models.rejected (cls_of m) k v = false.
Proof.
  split.
  - intros H. destruct (Models.rejected (cls_of m) k v) eqn:E; [|done].
    destruct (setattr_rejected m k v E) as [x Hx]. by rewrite Hx in H.
  - intros H. by rewrite setattr_accepted.
Qed.

(** X7. On an image, assigning [type] (or [status]) goes through exactly
    for the values of the enumeration; on a property no column is
    validated: every mapped column takes every value. An assignment
    that goes through makes the attribute read as the value assigned
    and leaves every other attribute as it was. *)
Theorem assignment_accepts_exactly_the_enumeration (m : Model) (v : value) :
  (cls_of m = Image ->
     ((Models.setattr m "type" v).2 = Ok tt <-> v ∈ Models.image_types) /\
     ((Models.setattr m "status" v).2 = Ok tt <-> v ∈ Models.image_statuses)) /\
  (cls_of m = ImageProperty ->
     forall k, k ∈ columns ImageProperty ->
       Models.setattr m k v =
         ({| cls_of := cls_of m; dict := <[k := v]> (dict m);
             identity := identity m |}, Ok tt)) /\
  (forall k, k ∉ Models.relationships (cls_of m) ->
     (Models.setattr m k v).2 = Ok tt ->
     getattr (Models.setattr m k v).1 k = v /\
     forall k', k' <> k -> getattr (Models.setattr m k v).1 k' = getattr m k').
Proof.
  split; [|split].
  - intros Hc. rewrite !setattr_Ok_iff, Hc. unfold Models.rejected; simpl.
    unfold Models.validate_type, Models.validate_status.
    split; case_bool_decide; simpl; split; done.
  - intros Hc k Hk. apply setattr_plain; by rewrite Hc.
  - intros k _ Hok. apply setattr_Ok_iff in Hok. rewrite setattr_accepted by done.
    simpl. split.
    + unfold getattr; simpl. by rewrite lookup_insert_eq.
    + intros k' Hne. unfold getattr; simpl. by rewrite lookup_insert_ne.
Qed.

Lemma update_assignable (m : Model) (values : list (string * value)) :
  Forall (fun kv => Models.assignable (cls_of m) kv.1 kv.2 = true) values ->
  (Models.update m values).2 = Ok tt /\
  cls_of (Models.update m values).1 = cls_of m /\
  identity (Models.update m values).1 = identity m.
Proof.
  revert m. induction values as [|[k v] rest IH]; intros m Hall; [done|].
  apply Forall_cons in Hall as [Hkv Hall]. simpl in *.
  unfold Models.__setitem__. rewrite setattr_assignable by done.
  set (m' := {| cls_of := cls_of m; dict := <[k := v]> (dict m);
                identity := identity m |}).
  by destruct (IH m' Hall) as (? & ? & ?).
Qed.

Lemma update_getattr_in (m : Model) (values : list (string * value))
    (k : string) (v : value) :
  NoDup values.*1 ->
  Forall (fun kv => Models.assignable (cls_of m) kv.1 kv.2 = true) values ->
  (k, v) ∈ values -> getattr (Models.update m values).1 k = v.
Proof.
  revert m. induction values as [|[k0 v0] rest IH]; intros m Hnd Hall Hin;
    [by apply elem_of_nil in Hin|].
  apply Forall_cons in Hall as [Hkv Hall]. simpl in Hkv.
  rewrite fmap_cons in Hnd. apply NoDup_cons in Hnd as [Hk0 Hnd].
  simpl. unfold Models.__setitem__. rewrite setattr_assignable by done.
  apply elem_of_cons in Hin as [[= -> ->]|Hin].
  - rewrite update_getattr_ne by done. unfold getattr; simpl.
    by rewrite lookup_insert_eq.
  - by apply IH.
Qed.

(** X8. [update(values)] whose items each name a mapped column of the class,
    with a value that the validator of the column (if it has one)
    accepts, assigns every one of them: afterwards each named attribute
    reads as its item, and attributes that are not named are what they
    were. *)
Theorem update_assigns_every_item (m : Model) (values : list (string * value)) :
  NoDup values.*1 ->
  Forall (fun kv => Models.assignable (cls_of m) kv.1 kv.2 = true) values ->
  (Models.update m values).2 = Ok tt /\
  (forall k v, (k, v) ∈ values -> getattr (Models.update m values).1 k = v) /\
  (forall k, k ∉ values.*1 -> getattr (Models.update m values).1 k = getattr m k) /\
  cls_of (Models.update m values).1 = cls_of m /\
  identity (Models.update m values).1 = identity m.
Proof.
  intros Hnd Hall. destruct (update_assignable m values Hall) as (Hok & Hc & Hi).
  split; [done|]. split; [|split; [|done]].
  - intros k v Hin. by apply update_getattr_in.
  - intros k Hk. by apply update_getattr_ne.
Qed.

(** X9. [update] is not atomic: when an item is rejected (by a validator,
    or because it names the read-only [str_id] or a guarded name such
    as [__class__], or because the relationship attribute refuses the
    value) after items that each name a mapped column with an accepted
    value, the call raises, the items that came before stay assigned
    and no later item is applied. *)
Theorem update_stops_at_the_first_failure (m : Model)
    (before after : list (string * value)) (k : string) (v : value) :
  Forall (fun kv => Models.assignable (cls_of m) kv.1 kv.2 = true) before ->
  Models.rejected (cls_of m) k v = true ->
  let out := Models.update m (before ++ (k, v) :: after) in
  (exists x, out.2 = Raise x) /\
  out.1 = (Models.update m before).1 /\
  (Models.update m before).2 = Ok tt /\
  (NoDup before.*1 -> forall k0 v0, (k0, v0) ∈ before -> getattr out.1 k0 = v0).
Proof.
  intros Hall Hbad out.
  assert ((exists x, out.2 = Raise x) /\ out.1 = (Models.update m before).1) as [Hx Heq].
  { subst out. revert m Hall Hbad.
    induction before as [|[k0 v0] before IH]; intros m Hall Hbad; simpl.
    - unfold Models.__setitem__.
      destruct (setattr_rejected m k v Hbad) as [x ->]. simpl. eauto.
    - apply Forall_cons in Hall as [Hkv Hall]. simpl in Hkv.
      unfold Models.__setitem__. rewrite setattr_assignable by done.
      apply IH; done. }
  split; [done|]. split; [done|].
  split; [by apply update_assignable|].
  intros Hnd k0 v0 Hin. rewrite Heq.
  by apply update_getattr_in.
Qed.

(** ** Dict-like reading: [__getitem__] *)

(** X10. Reading back what was assigned: after [self[key] = v] went through,
    [self[key]] is [v] (for every name but the relationship attribute,
    which takes mapped objects). A mapped column that was never assigned
    reads as [None] instead of failing, [self["str_id"]] is the derived
    identifier and cannot be assigned, and a name that is found nowhere
    raises [AttributeError]. *)
Theorem getitem_reads_what_setitem_wrote (m : Model) (key : string) (v : value) :
  (key ∉ Models.relationships (cls_of m) ->
   (Models.__setitem__ m key v).2 = Ok tt ->
   Models.__getitem__ (Models.__setitem__ m key v).1 key = Ok (Models.Data v)) /\
  (key ∈ columns (cls_of m) -> dict m !! key = None ->
   Models.__getitem__ m key = Ok (Models.Data VNone)) /\
  Models.__getitem__ m "str_id" = Ok (Models.Data (VStr (Models.str_id m))) /\
  Models.__setitem__ m "str_id" v = (m, Raise (AttributeError "can't set attribute")) /\
  (key <> "str_id" -> key ∉ columns (cls_of m) ->
   key ∉ Models.relationships (cls_of m) -> dict m !! key = None ->
   key ∉ Models.class_attributes (cls_of m) -> Models.untracked_name key = false ->
   Models.__getitem__ m key
     = Raise (AttributeError ("'" ++ __name__ (cls_of m)
                                  ++ "' object has no attribute '" ++ key ++ "'"))).
Proof.
  split; [|split; [|split; [|split]]]; try done.
  - intros Hrel Hok. unfold Models.__setitem__ in *.
    apply setattr_Ok_iff in Hok. pose proof Hok as Hk.
    unfold Models.rejected in Hk.
    apply orb_false_iff in Hk as [Hk _].
    apply orb_false_iff in Hk as [Hk%bool_decide_eq_false _].
    rewrite setattr_accepted by done. unfold Models.__getitem__; simpl.
    rewrite decide_False by done.
    destruct (decide (key ∈ columns (cls_of m))).
    + unfold getattr; simpl. by rewrite lookup_insert_eq.
    + rewrite decide_False by done. by rewrite lookup_insert_eq.
  - intros Hcol Hnone. unfold Models.__getitem__.
    destruct (decide (key = "str_id")) as [->|Hk].
    + exfalso. revert Hcol.
      destruct (cls_of m);
        apply (bool_decide_eq_false_1 ("str_id" ∈ columns _)); reflexivity.
    + rewrite decide_True by done. unfold getattr. by rewrite Hnone.
  - intros Hk Hcol Hrel Hnone Hcls Hun. unfold Models.__getitem__.
    rewrite !decide_False by done. by rewrite Hnone, Hun.
Qed.

(** ** Iteration: [__iter__] and [next] *)

Lemma drain_cursor (self : Model) (l : list string) (fuel : nat) :
  (length l < fuel)%nat ->
  Models.drain fuel {| Models.it_self := self; Models._i := Some l |} =
    Some ({| Models.it_self := self; Models._i := Some [] |},
          Ok ((fun n => (n, getattr self n)) <$> l)).
Proof.
  revert fuel. induction l as [|n l IH]; intros fuel Hlt.
  - destruct fuel; [simpl in Hlt; lia|]. done.
  - destruct fuel; [simpl in Hlt; lia|]. simpl in *.
    rewrite IH by lia. done.
Qed.

Lemma columns_NoDup (c : cls) : NoDup (columns c).
Proof. destruct c; apply (bool_decide_eq_true_1 (NoDup _)); reflexivity. Qed.

(** X11. A [for] loop over an object, given enough steps, ends and yields
    every mapped column exactly once, each with the attribute of that
    name (an attribute that is no column is never yielded), wherever an
    earlier loop over the same object had stopped. The exhausted cursor
    stays exhausted, and [next] before any [__iter__] fails with
    [AttributeError]. *)
Theorem iteration_yields_each_column_once (it : Models.Iterating) (fuel : nat) :
  let self := Models.it_self it in
  (length (columns (cls_of self)) < fuel)%nat ->
  (exists items,
     Models.for_each fuel it =
       Some ({| Models.it_self := self; Models._i := Some [] |}, Ok items) /\
     items.*1 ≡ₚ columns (cls_of self) /\
     NoDup items.*1 /\
     (forall n v, (n, v) ∈ items -> v = getattr self n) /\
     (forall n, n ∉ columns (cls_of self) -> n ∉ items.*1)) /\
  Models.next {| Models.it_self := self; Models._i := Some [] |} =
    ({| Models.it_self := self; Models._i := Some [] |}, Models.StopIteration) /\
  (exists msg,
     Models.next {| Models.it_self := self; Models._i := None |} =
       ({| Models.it_self := self; Models._i := None |},
        Models.Fail (AttributeError msg))).
Proof.
  intros self Hfuel. split; [|split; [done|by eexists]].
  exists ((fun n => (n, getattr self n)) <$> columns (cls_of self)).
  assert (((fun n => (n, getattr self n)) <$> columns (cls_of self)).*1
          = columns (cls_of self)) as Hfst.
  { rewrite <- list_fmap_compose. apply list_fmap_id. }
  split; [|split; [|split; [|split]]].
  - unfold Models.for_each, Models.__iter__. by apply drain_cursor.
  - by rewrite Hfst.
  - rewrite Hfst. apply columns_NoDup.
  - intros n v (n' & [= -> ->] & _)%list_elem_of_fmap. done.
  - intros n Hn. by rewrite Hfst.
Qed.

(** ** External identifiers: [str_id] and [find_by_str] *)

Lemma parse_int_str_of_Z (z : Z) : parse_int (str_of_Z z) = Some z.
Proof.
  destruct z as [|p|p]; [done|apply (parse_int_str_of_N (Npos p))|].
  simpl. unfold parse_int, strip.
  assert (all_chars (fun c => negb (is_space c)) (str_of_N (N.pos p)) = true) as Hs.
  { eapply all_chars_impl; [|apply str_of_N_digits].
    intros c Hc. by rewrite digit_not_space. }
  change (lstrip (String "-" (str_of_N (N.pos p))))
    with (String "-" (str_of_N (N.pos p))).
  rewrite rstrip_no_space by (simpl; by rewrite Hs).
  by rewrite parse_digits_str_of_N.
Qed.

Lemma str_of_Z_inj (a b : Z) : str_of_Z a = str_of_Z b -> a = b.
Proof.
  intros H. pose proof (parse_int_str_of_Z a) as Ha.
  rewrite H, parse_int_str_of_Z in Ha. by injection Ha.
Qed.

Lemma str_of_Z_head (z : Z) (c : ascii) (rest : string) :
  str_of_Z z = String c rest -> c = "-"%char \/ is_digit c = true.
Proof.
  destruct z as [|p|p]; simpl.
  - intros [= <- _]. by right.
  - intros H. pose proof (str_of_N_digits (N.pos p)) as Hd. rewrite H in Hd.
    simpl in Hd. apply andb_true_iff in Hd as [Hd _]. by right.
  - intros [= <- _]. by left.
Qed.

(** X12. The identifier tells the object: two objects with integer ids that
    have the same [str_id] are of the same class and have the same
    id. *)
Theorem str_id_determines_class_and_id (a b : Model) (na nb : Z) :
  getattr a "id" = VInt na -> getattr b "id" = VInt nb ->
  Models.str_id a = Models.str_id b ->
  cls_of a = cls_of b /\ na = nb.
Proof.
  intros Ha Hb. unfold Models.str_id. rewrite Ha, Hb.
  destruct (cls_of a), (cls_of b); simpl; intros [= H].
  - split; [done|]. by apply str_of_Z_inj.
  - apply str_of_Z_head in H as [H|H]; [done|]. vm_compute in H. done.
  - symmetry in H. apply str_of_Z_head in H as [H|H]; [done|]. vm_compute in H. done.
  - split; [done|]. by apply str_of_Z_inj.
Qed.

(** X13. Before the first [save()] the identifier is ["<prefix>-None"], and
    [find_by_str] of it fails with [ValueError] whatever the store
    holds. *)
Theorem str_id_of_unsaved_object (self : Model) (c : cls)
    (session : option Session) (deleted : bool) :
  getattr self "id" = VNone ->
  Models.str_id self = __prefix__ (cls_of self) ++ "-None" /\
  Models.find_by_str get_session c (Models.str_id self) session deleted
    = Raise (ValueError "invalid literal for int() with base 10: 'None'").
Proof.
  intros Hid. unfold Models.str_id. rewrite Hid. split; [done|].
  unfold Models.find_by_str.
  change (__prefix__ (cls_of self) ++ "-" ++ py_str VNone)
    with (__prefix__ (cls_of self) ++ "-" ++ "None").
  by rewrite (rpartition_suffix_split _ "None").
Qed.

(** X14. [find_by_str] does not look at the prefix: whatever precedes the
    last ['-'] (or nothing at all), the call is [find] of the number that
    follows. In particular the identifier of a property looks up, on
    [Image], the image with the same id. *)
Theorem find_by_str_ignores_the_prefix (c : cls) (prefix : string) (n : Z)
    (session : option Session) (deleted : bool) :
  0 <= n ->
  Models.find_by_str get_session c (prefix ++ "-" ++ str_of_Z n) session deleted
    = Models.find get_session c (VInt n) session deleted /\
  Models.find_by_str get_session c (str_of_Z n) session deleted
    = Models.find get_session c (VInt n) session deleted /\
  (forall p, cls_of p = ImageProperty -> getattr p "id" = VInt n ->
     Models.find_by_str get_session Image (Models.str_id p) session deleted
       = Models.find get_session Image (VInt n) session deleted).
Proof.
  intros Hn.
  assert (all_chars no_dash (str_of_Z n) = true) as Hnd.
  { rewrite str_of_Z_nonneg by done.
    eapply all_chars_impl; [|apply str_of_N_digits].
    intros ch Hch. unfold no_dash. by rewrite digit_not_dash. }
  assert (forall h, Models.find_by_str get_session c (h ++ "-" ++ str_of_Z n) session deleted
                    = Models.find get_session c (VInt n) session deleted) as Hpre.
  { intros h. unfold Models.find_by_str, int.
    by rewrite rpartition_suffix_split, parse_int_str_of_Z. }
  split; [apply Hpre|]. split.
  - unfold Models.find_by_str, int.
    by rewrite rpartition_suffix_whole, parse_int_str_of_Z.
  - intros p Hc Hid. unfold Models.str_id. rewrite Hid, Hc. simpl.
    unfold Models.find_by_str, int.
    by rewrite (rpartition_suffix_split "img-prop" _ Hnd), parse_int_str_of_Z.
Qed.

(** ** Composition of [save], the queries and [delete] *)

Lemma first_save_row (self : Model) (now : datetime) (s : Session) :
  cls_of self = Image -> identity self = None -> getattr self "id" = VNone ->
  getattr self "deleted" = VNone ->
  let r := insert_row self now (images s) in
  flush self now s = (flushed self r, set_table s Image (images s ++ [r])%list, Ok tt) /\
  col r "id" = VInt (next_id (images s)) /\
  col r "deleted" = VBool false /\
  forall k, k ∈ columns Image -> getattr (flushed self r) k = col r k.
Proof.
  intros Hc Hid Hnone Hdel r.
  destruct (flush_insert_image self now s Hc Hid Hnone) as [Hr Hflush].
  split; [done|]. split; [done|]. split.
  - unfold r. rewrite col_insert_row; [|rewrite Hc; repeat constructor|done].
    by rewrite Hdel, Hc.
  - intros k Hk. apply getattr_flushed_col. unfold r. apply insert_row_is_Some.
    by rewrite Hc.
Qed.

(** X15. A new image saved without an id and without a [deleted] flag is
    listed from then on: [count()] with the default filter grows by one,
    the count of deleted images does not move, and [all()] holds an
    object with the columns of the saved one. *)
Theorem saved_image_is_listed (self : Model) (session : option Session)
    (now : datetime) :
  let s := Models.session_or_default get_session session in
  let out := Models.save get_session self session now in
  cls_of self = Image -> identity self = None -> getattr self "id" = VNone ->
  getattr self "deleted" = VNone ->
  Models.count get_session Image (Some out.1.2) false
    = S (Models.count get_session Image (Some s) false) /\
  Models.count get_session Image (Some out.1.2) true
    = Models.count get_session Image (Some s) true /\
  exists m, m ∈ Models.all get_session Image (Some out.1.2) false /\
    forall k, k ∈ columns Image -> getattr m k = getattr out.1.1 k.
Proof.
  intros s out Hc Hid Hnone Hdel. subst out. unfold Models.save. fold s.
  destruct (first_save_row self now s Hc Hid Hnone Hdel) as (Hflush & Hrid & Hrd & Hcols).
  set (r := insert_row self now (images s)) in *. rewrite Hflush.
  unfold Models.count, Models.all, q_count, q_all, filter_by, query; simpl.
  rewrite !filter_app, !length_app.
  rewrite (filter_cons_True (fun x => col x "deleted" = VBool false)) by done.
  rewrite (filter_cons_False (fun x => col x "deleted" = VBool true)) by congruence.
  rewrite !filter_nil. simpl. split; [lia|]. split; [lia|].
  exists (load Image r). split.
  - apply list_elem_of_fmap. exists r. split; [done|].
    apply elem_of_app. right. apply list_elem_of_here.
  - intros k Hk. rewrite getattr_load. symmetry. by apply Hcols.
Qed.


(** X17. [find] translates only the empty result: when two rows carry the
    id and the flag asked for, the [MultipleResultsFound] of the query
    reaches the caller as it is. *)
Theorem find_passes_on_multiple_results (c : cls) (obj_id : value)
    (session : option Session) (deleted : bool) (i j : nat)
    (a b : gmap string value) :
  let s := Models.session_or_default get_session session in
  table s c !! i = Some a -> table s c !! j = Some b -> (i < j)%nat ->
  col a "id" = obj_id -> col a "deleted" = VBool deleted ->
  col b "id" = obj_id -> col b "deleted" = VBool deleted ->
  Models.find get_session c obj_id session deleted = Raise MultipleResultsFound.
Proof.
  intros s Hi Hj Hlt Ha1 Ha2 Hb1 Hb2. unfold Models.find, query. fold s.
  rewrite filter_by_id_deleted.
  set (P := fun r : gmap string value =>
              col r "id" = obj_id /\ col r "deleted" = VBool deleted).
  assert (2 <= length (filter P (table s c)))%nat as Hlen.
  { rewrite <- (take_drop_middle _ _ _ Hi), filter_app, length_app.
    rewrite (filter_cons_True P) by done. simpl.
    assert (b ∈ filter P (drop (S i) (table s c))) as Hb.
    { apply list_elem_of_filter. split; [done|].
      apply list_elem_of_lookup. exists (j - S i)%nat.
      rewrite lookup_drop. by replace (S i + (j - S i))%nat with j by lia. }
    destruct (filter P (drop (S i) (table s c))); [by apply elem_of_nil in Hb|].
    simpl. lia. }
  destruct (filter P (table s c)) as [|x [|y rest]]; simpl in Hlen; try lia. done.
Qed.

(** X6. [delete()] on a stored, live image always succeeds and moves it from
    the live images to the deleted ones: the table keeps its length,
    [count()] with the default filter loses one, the count of deleted
    images gains one, and [updated_at] is refreshed by the UPDATE. *)
Theorem delete_moves_image_to_deleted (self : Model) (s : Session)
    (now flush_now : datetime) :
  store_ok s -> cls_of self = Image -> in_sync self s ->
  getattr self "deleted" = VBool false ->
  let out := Models.delete get_session self (Some s) now flush_now in
  out.2 = Ok tt /\
  getattr out.1.1 "updated_at" = VTime flush_now /\
  length (images out.1.2) = length (images s) /\
  S (Models.count get_session Image (Some out.1.2) false)
    = Models.count get_session Image (Some s) false /\
  Models.count get_session Image (Some out.1.2) true
    = S (Models.count get_session Image (Some s) true).
Proof.
  intros Hok Hcls (key & old & Hid & Hold & Hkey & Hclean) Hlive out.
  subst out. rewrite delete_unfold. unfold Models.save; simpl.
  destruct self as [c d idn]; simpl in *. subst c idn.
  pose proof (store_ok_table s Image Hok) as Ht. simpl in Ht.
  apply list_elem_of_lookup_1 in Hold as [i Hi].
  set (self := {| cls_of := Image; dict := d; identity := Some key |}) in *.
  assert (forall k, k ∈ columns Image -> getattr self k = col old k) as Hself.
  { intros k Hk. unfold is_clean in Hclean. rewrite forallb_forall in Hclean.
    by apply list_elem_of_In, Hclean, bool_decide_eq_true in Hk. }
  set (m := {| cls_of := Image;
               dict := <["deleted_at" := VTime now]> (<["deleted" := VBool true]> d);
               identity := Some key |}).
  assert (forall k, k <> "deleted" -> k <> "deleted_at" -> getattr m k = getattr self k)
    as Hm.
  { intros k H1 H2. unfold getattr, m, self; simpl. by rewrite !lookup_insert_ne. }
  assert (getattr m "deleted" = VBool true) as Hmd.
  { unfold getattr, m; simpl. rewrite lookup_insert_ne by done.
    by rewrite lookup_insert_eq. }
  assert (getattr m "id" = VInt key) as Hmid
    by (rewrite Hm, Hself, Hkey by (try apply id_column; done); done).
  set (r := update_row m old flush_now).
  assert (col r "updated_at" = VTime flush_now) as Hru.
  { unfold r. rewrite col_update_row_updated_at.
    rewrite bool_decide_eq_true_2; [done|].
    rewrite Hm by done. apply Hself. repeat constructor. }
  assert (forall k, k ∈ columns Image -> k <> "updated_at" -> col r k = getattr m k) as Hr.
  { intros k Hk Hne. unfold r. by apply col_update_row. }
  assert (col old "deleted" = VBool false) as Hod
    by (rewrite <- Hself by repeat constructor; done).
  assert (is_clean m old = false) as Hcl.
  { apply not_true_iff_false. intros Hc. unfold is_clean in Hc.
    rewrite forallb_forall in Hc.
    assert (In "deleted" (columns (cls_of m))) as Hin
      by (apply list_elem_of_In; repeat constructor).
    apply Hc, bool_decide_eq_true in Hin. congruence. }
  assert (check_constraints Image r (base.delete i (images s)) = Ok tt) as Hcc.
  { apply (check_constraints_image _ _ key).
    - by rewrite Hr, Hmid by (try apply id_column; done).
    - apply (others_no_pk Image (images s) i old r Ht Hi).
      by rewrite Hr, Hmid by (try apply id_column; done). }
  rewrite (flush_update_changed m key flush_now s i old Ht eq_refl Hi Hkey Hcl Hcc).
  fold r. cbn [fst snd].
  change (table (set_table s Image (<[i:=r]> (table s Image))) Image)
    with (<[i:=r]> (images s)).
  assert (col r "deleted" = VBool true) as Hrd
    by (rewrite Hr, Hmd by (try repeat constructor; done); done).
  split; [done|]. split.
  { rewrite getattr_flushed_col by (apply update_row_is_Some; repeat constructor). done. }
  split; [apply length_insert|].
  unfold Models.count, q_count, filter_by, query; simpl.
  pose proof (filter_insert_length (fun x => col x "deleted" = VBool false)
                (images s) i old r Hi) as Hf.
  pose proof (filter_insert_length (fun x => col x "deleted" = VBool true)
                (images s) i old r Hi) as Htr.
  rewrite (decide_True _ _ Hod) in Hf.
  rewrite decide_False in Hf by congruence.
  rewrite decide_False in Htr by congruence.
  rewrite (decide_True _ _ Hrd) in Htr.
  split; lia.
Qed.

(** X18. Each row is on one side of the deletion filter at most: no object is
    returned both by [all(deleted=False)] and by [all(deleted=True)], the
    two counts never exceed the number of rows, and they add up to it
    when every row carries a boolean flag. *)
Theorem deletion_filter_partitions_rows (c : cls) (session : option Session) :
  let s := Models.session_or_default get_session session in
  (forall m, m ∈ Models.all get_session c session false ->
     m ∉ Models.all get_session c session true) /\
  (Models.count get_session c session false + Models.count get_session c session true
   <= length (table s c))%nat /\
  (Forall (fun r => exists d, col r "deleted" = VBool d) (table s c) ->
   (Models.count get_session c session false + Models.count get_session c session true
    = length (table s c))%nat).
Proof.
  intros s. unfold Models.all, Models.count, q_all, q_count, filter_by, query. fold s.
  split; [|split].
  - intros m (r & -> & Hr)%list_elem_of_fmap (r' & Heq & Hr')%list_elem_of_fmap.
    apply list_elem_of_filter in Hr as [Hd _].
    apply list_elem_of_filter in Hr' as [Hd' _].
    assert (col r "deleted" = col r' "deleted") as E
      by (rewrite <- !(getattr_load c); by rewrite Heq).
    congruence.
  - induction (table s c) as [|r t IH]; [done|].
    rewrite !filter_cons. simpl.
    destruct (decide (col r "deleted" = VBool false)) as [E|E];
      destruct (decide (col r "deleted" = VBool true)) as [E'|E']; simpl; try lia.
    congruence.
  - induction (table s c) as [|r t IH]; intros Hall; [done|].
    apply Forall_cons in Hall as [[d Hd] Hall]. specialize (IH Hall).
    rewrite !filter_cons. simpl. rewrite Hd.
    destruct d.
    + rewrite decide_False by done. rewrite decide_True by done. simpl. lia.
    + rewrite decide_True by done. rewrite decide_False by done. simpl. lia.
Qed.

(** ** Properties and the constraints of their table *)


(** X19. A property cannot be saved without its image: the first [save()] of
    a property that has neither an [image_id] nor an image attached
    through the relationship (its [image] attribute is unset) fails
    with the store's [IntegrityError] for the [nullable=False] column
    and writes nothing. *)
Theorem property_needs_an_image (self : Model) (session : option Session)
    (now : datetime) :
  let s := Models.session_or_default get_session session in
  cls_of self = ImageProperty -> identity self = None ->
  getattr self "image_id" = VNone -> getattr self "image" = VNone ->
  Models.save get_session self session now =
    (self, s, Raise (IntegrityError "image_properties.image_id may not be NULL")).
Proof.
  intros s Hc Hid Himg _. unfold Models.save. fold s.
  unfold flush. rewrite Hid. unfold flush_insert. rewrite Hc.
  set (r := insert_row self now (table s ImageProperty)).
  assert (col r "id" <> VNone) as Hrid.
  { unfold r. rewrite col_insert_row_id. by destruct (getattr self "id"). }
  assert (col r "image_id" = VNone) as Hri.
  { unfold r. rewrite col_insert_row; [|rewrite Hc; repeat constructor|done].
    by rewrite Himg, Hc. }
  unfold check_constraints. simpl.
  rewrite (bool_decide_eq_false_2 _ Hrid), (bool_decide_eq_true_2 _ Hri). done.
Qed.


End Further.

(** ** Instances of the further properties *)



Lemma second_save_changes_nothing_witness :
  store_ok Sample.empty /\
  (Models.save Sample.provider Sample.ubuntu None Sample.t0).2 = Ok tt /\
  Models.save Sample.provider Sample.ubuntu_saved (Some Sample.one_image) Sample.t1
    = (Sample.ubuntu_saved, Sample.one_image, Ok tt).
Proof.
  assert (store_ok Sample.empty) as Hok by (split; reflexivity).
  split; [exact Hok|]. split; [vm_compute; reflexivity|].
  apply (second_save_changes_nothing Sample.provider Sample.ubuntu None
           Sample.t0 Sample.t1 Hok).
  vm_compute. reflexivity.
Defined.


Lemma delete_of_unsaved_image_inserts_it_witness :
  cls_of Sample.ubuntu = Image /\ identity Sample.ubuntu = None /\
  getattr Sample.ubuntu "id" = VNone /\
  let out := Models.delete Sample.provider Sample.ubuntu None Sample.t1 Sample.t2 in
  out.2 = Ok tt /\
  Models.count Sample.provider Image (Some out.1.2) true = 1%nat.
Proof.
  split; [reflexivity|]. split; [reflexivity|]. split; [reflexivity|].
  destruct (delete_of_unsaved_image_inserts_it Sample.provider Sample.ubuntu None
              Sample.t1 Sample.t2 eq_refl eq_refl eq_refl) as (Hok & _ & Hcount & _).
  split; [exact Hok|exact Hcount].
Defined.

Lemma delete_moves_image_to_deleted_witness :
  store_ok Sample.one_image /\ cls_of Sample.ubuntu_saved = Image /\
  in_sync Sample.ubuntu_saved Sample.one_image /\
  getattr Sample.ubuntu_saved "deleted" = VBool false /\
  let out := Models.delete Sample.provider Sample.ubuntu_saved
               (Some Sample.one_image) Sample.t1 Sample.t2 in
  out.2 = Ok tt /\ getattr out.1.1 "updated_at" = VTime Sample.t2 /\
  Models.count Sample.provider Image (Some out.1.2) false = 0%nat.
Proof.
  assert (store_ok Sample.one_image) as Hok by (split; vm_compute; reflexivity).
  assert (in_sync Sample.ubuntu_saved Sample.one_image) as Hsync.
  { exists 1, (row_of Sample.ubuntu_saved).
    split; [reflexivity|]. split; [vm_compute; apply list_elem_of_here|].
    split; vm_compute; reflexivity. }
  assert (getattr Sample.ubuntu_saved "deleted" = VBool false) as Hlive
    by (vm_compute; reflexivity).
  split; [exact Hok|]. split; [reflexivity|]. split; [exact Hsync|].
  split; [exact Hlive|].
  destruct (delete_moves_image_to_deleted Sample.provider Sample.ubuntu_saved
              Sample.one_image Sample.t1 Sample.t2 Hok eq_refl Hsync Hlive)
    as (Hsucc & Hup & _ & Hcount & _).
  split; [exact Hsucc|]. split; [exact Hup|].
  apply eq_add_S. rewrite Hcount. vm_compute. reflexivity.
Defined.

Lemma update_assigns_every_item_witness :
  NoDup [("name", VStr "lucid"); ("status", VStr "pending")].*1 /\
  Forall (fun kv => Models.assignable (cls_of Sample.ubuntu) kv.1 kv.2 = true)
    [("name", VStr "lucid"); ("status", VStr "pending")] /\
  getattr (Models.update Sample.ubuntu
             [("name", VStr "lucid"); ("status", VStr "pending")]).1 "status"
    = VStr "pending".
Proof.
  assert (NoDup [("name", VStr "lucid"); ("status", VStr "pending")].*1) as Hnd
    by (apply (bool_decide_eq_true_1 (NoDup _)); reflexivity).
  assert (Forall (fun kv => Models.assignable (cls_of Sample.ubuntu) kv.1 kv.2 = true)
            [("name", VStr "lucid"); ("status", VStr "pending")]) as Hall
    by (repeat constructor).
  split; [exact Hnd|]. split; [exact Hall|].
  destruct (update_assigns_every_item Sample.ubuntu _ Hnd Hall) as (_ & Hin & _).
  apply Hin. apply list_elem_of_further, list_elem_of_here.
Defined.

Lemma update_stops_at_the_first_failure_witness :
  Forall (fun kv => Models.assignable (cls_of Sample.ubuntu) kv.1 kv.2 = true)
    [("name", VStr "lucid")] /\
  Models.rejected (cls_of Sample.ubuntu) "type" (VStr "vhd") = true /\
  let out := Models.update Sample.ubuntu
               [("name", VStr "lucid"); ("type", VStr "vhd");
                ("status", VStr "pending")] in
  (exists x, out.2 = Raise x) /\
  getattr out.1 "name" = VStr "lucid" /\
  getattr out.1 "type" = VStr "machine" /\
  getattr out.1 "status" = VStr "available".
Proof.
  assert (Forall (fun kv => Models.assignable (cls_of Sample.ubuntu) kv.1 kv.2 = true)
            [("name", VStr "lucid")]) as Hall by (repeat constructor).
  assert (Models.rejected (cls_of Sample.ubuntu) "type" (VStr "vhd") = true) as Hbad
    by reflexivity.
  split; [exact Hall|]. split; [exact Hbad|].
  destruct (update_stops_at_the_first_failure Sample.ubuntu [("name", VStr "lucid")]
              [("status", VStr "pending")] "type" (VStr "vhd") Hall Hbad)
    as (Hx & Heq & _ & _).
  split; [exact Hx|]. simpl app in Heq. rewrite Heq.
  repeat split; vm_compute; reflexivity.
Defined.

Lemma iteration_yields_each_column_once_witness :
  (length (columns (cls_of (Models.it_self Sample.half_way))) < 12)%nat /\
  exists items,
    Models.for_each 12 Sample.half_way =
      Some (Models.mk_iterating Sample.ubuntu_saved (Some []), Ok items) /\
    length items = 11%nat.
Proof.
  assert (length (columns (cls_of (Models.it_self Sample.half_way))) < 12)%nat as Hfuel
    by (vm_compute; lia).
  split; [exact Hfuel|].
  destruct (iteration_yields_each_column_once Sample.half_way 12 Hfuel)
    as ((items & Hrun & Hperm & _) & _).
  exists items. split; [exact Hrun|].
  rewrite <- (length_fmap fst), Hperm. reflexivity.
Defined.

Lemma str_id_determines_class_and_id_witness :
  getattr Sample.ubuntu_saved "id" = VInt 1 /\
  getattr Sample.arch_saved "id" = VInt 1 /\
  Models.str_id Sample.ubuntu_saved <> Models.str_id Sample.arch_saved.
Proof.
  assert (getattr Sample.ubuntu_saved "id" = VInt 1) as Ha by (vm_compute; reflexivity).
  assert (getattr Sample.arch_saved "id" = VInt 1) as Hb by (vm_compute; reflexivity).
  split; [exact Ha|]. split; [exact Hb|]. intros Heq.
  destruct (str_id_determines_class_and_id _ _ _ _ Ha Hb Heq) as [Hc _].
  vm_compute in Hc. discriminate Hc.
Defined.

Lemma str_id_of_unsaved_object_witness :
  getattr Sample.ubuntu "id" = VNone /\
  Models.str_id Sample.ubuntu = "img-None" /\
  Models.find_by_str Sample.provider Image (Models.str_id Sample.ubuntu)
      (Some Sample.one_image) false
    = Raise (ValueError "invalid literal for int() with base 10: 'None'").
Proof.
  split; [reflexivity|].
  destruct (str_id_of_unsaved_object Sample.provider Sample.ubuntu Image
              (Some Sample.one_image) false eq_refl) as [Hs Hf].
  split; [exact Hs|exact Hf].
Defined.

Lemma find_by_str_ignores_the_prefix_witness :
  0 <= 1 /\
  Models.find_by_str Sample.provider Image (Models.str_id Sample.arch_saved)
      (Some Sample.with_arch) false
    = Models.find Sample.provider Image (VInt 1) (Some Sample.with_arch) false.
Proof.
  assert (0 <= 1) as Hn by lia. split; [exact Hn|].
  destruct (find_by_str_ignores_the_prefix Sample.provider Image "" 1
              (Some Sample.with_arch) false Hn) as (_ & _ & Hp).
  apply Hp; vm_compute; reflexivity.
Defined.

Lemma saved_image_is_listed_witness :
  cls_of Sample.ubuntu = Image /\ identity Sample.ubuntu = None /\
  getattr Sample.ubuntu "id" = VNone /\ getattr Sample.ubuntu "deleted" = VNone /\
  Models.count Sample.provider Image (Some Sample.one_image) false = 1%nat.
Proof.
  split; [reflexivity|]. split; [reflexivity|]. split; [reflexivity|].
  split; [reflexivity|].
  destruct (saved_image_is_listed Sample.provider Sample.ubuntu None Sample.t0
              eq_refl eq_refl eq_refl eq_refl) as (Hcount & _).
  exact Hcount.
Defined.


Lemma find_passes_on_multiple_results_witness :
  table Sample.twice Image !! 0%nat = Some (row_of Sample.ubuntu_saved) /\
  table Sample.twice Image !! 1%nat = Some (row_of Sample.ubuntu_saved) /\
  (0 < 1)%nat /\
  Models.find Sample.provider Image (VInt 1) (Some Sample.twice) false
    = Raise MultipleResultsFound.
Proof.
  split; [reflexivity|]. split; [reflexivity|]. split; [lia|].
  apply (find_passes_on_multiple_results Sample.provider Image (VInt 1)
           (Some Sample.twice) false 0 1 (row_of Sample.ubuntu_saved)
           (row_of Sample.ubuntu_saved));
    try reflexivity; try lia; vm_compute; reflexivity.
Defined.

Lemma property_needs_an_image_witness :
  cls_of Sample.orphan = ImageProperty /\ identity Sample.orphan = None /\
  getattr Sample.orphan "image_id" = VNone /\
  getattr Sample.orphan "image" = VNone /\
  Models.save Sample.provider Sample.orphan (Some Sample.one_image) Sample.t1
    = (Sample.orphan, Sample.one_image,
       Raise (IntegrityError "image_properties.image_id may not be NULL")).
Proof.
  assert (getattr Sample.orphan "image_id" = VNone) as Himg by (vm_compute; reflexivity).
  assert (getattr Sample.orphan "image" = VNone) as Hrel by (vm_compute; reflexivity).
  split; [reflexivity|]. split; [reflexivity|]. split; [exact Himg|].
  split; [exact Hrel|].
  apply (property_needs_an_image Sample.provider Sample.orphan
           (Some Sample.one_image) Sample.t1 eq_refl eq_refl Himg Hrel).
Defined.

